(** * Redundancy payout calculator (app.py): calculation engine

    Shallow embedding of the calculation part of [src/app.py]: the date
    helpers, the redundancy-weeks formula, the tax-free cap and the
    straight-line "Compute" section of the script.

    Modelling choices.
    - A Python [date] is a record of three integers; [<] on dates and on
      [(month, day)] tuples is the lexicographic order Python uses.
    - Python [int] is [Z]; [//] and [%] by the positive constant 12 are
      [Z.div] and [Z.modulo] (both round towards minus infinity).
    - Python [float] amounts are exact rationals [Q], compared with [==]
      ([Qeq]): this model leaves rounding out.  Module [B64] repeats the
      tax-free cap and the "Compute" section over IEEE 754 binary64, for
      the statements that rounding decides.
    - The [FY_CAPS] dict of dicts is a [gmap string (gmap string Q)];
      [d.get(k, v)] is [default v (d !! k)]. *)

From Stdlib Require Import ZArith QArith Qminmax Lia Lqa Bool.
From Stdlib Require Import PrimFloat SpecFloat FloatOps.
From stdpp Require Import gmap strings pretty.

Local Open Scope Z_scope.

(* Decimal float literals such as [0.32] denote the nearest binary64 value,
   as in Python. *)
Set Warnings "-inexact-float".

(** ** Python built-ins used by the engine *)

(** [max(a, b)] on ints: the first argument unless the second is greater. *)
Definition max_int (a b : Z) : Z := if b >? a then b else a.

(** [b > a] on floats. *)
Definition Qgtb (b a : Q) : bool := negb (Qle_bool b a).

(** [max(a, b)] and [min(a, b)] on floats: the first argument unless the
    second is strictly greater (resp. smaller). *)
Definition max_float (a b : Q) : Q := if Qgtb b a then b else a.
Definition min_float (a b : Q) : Q := if Qgtb a b then b else a.

(** Lexicographic [<] on two-element tuples of ints. *)
Definition tuple_lt (a b : Z * Z) : bool :=
  (fst a <? fst b) || ((fst a =? fst b) && (snd a <? snd b)).

(** ** Dates *)

Record date : Type := mkdate { year : Z; month : Z; day : Z }.

(** [a < b] on [datetime.date]: comparison of [(year, month, day)]. *)
Definition date_lt (a b : date) : bool :=
  (year a <? year b)
  || ((year a =? year b) && tuple_lt (month a, day a) (month b, day b)).

Definition date_le (a b : date) : bool := negb (date_lt b a).

(** The values a [datetime.date] can hold (proleptic Gregorian calendar,
    years 1 to 9999). *)
Definition is_leap (y : Z) : bool :=
  (y mod 4 =? 0) && (negb (y mod 100 =? 0) || (y mod 400 =? 0)).

Definition days_in_month (y m : Z) : Z :=
  if m =? 2 then (if is_leap y then 29 else 28)
  else if (m =? 4) || (m =? 6) || (m =? 9) || (m =? 11) then 30
  else 31.

Definition valid_date (d : date) : bool :=
  (1 <=? year d) && (year d <=? 9999)
  && (1 <=? month d) && (month d <=? 12)
  && (1 <=? day d) && (day d <=? days_in_month (year d) (month d)).

(** ** Service and age helpers (app.py, lines 124-141) *)

Definition full_months_between (start end_ : date) : Z :=
  if date_lt end_ start then 0
  else
    let months := (year end_ - year start) * 12 + (month end_ - month start) in
    let months := if day end_ <? day start then months - 1 else months in
    max_int 0 months.

Definition years_and_months_from_total (total_months : Z) : Z * Z :=
  let years := total_months / 12 in
  let months := total_months mod 12 in
  (years, months).

Definition age_on (dob on_date : date) : Z :=
  let years := year on_date - year dob in
  if tuple_lt (month on_date, day on_date) (month dob, day dob)
  then years - 1 else years.

(** ** Redundancy weeks (app.py, lines 143-155) *)

(** The returned tuple [(weeks, yrs, mos, a, is_45_plus)], with its
    components named. *)
Record RedundancyWeeks : Type := mkRedundancyWeeks {
  rw_weeks : Q;
  rw_yrs : Z;
  rw_mos : Z;
  rw_age : Z;
  rw_is_45_plus : bool
}.

Definition redundancy_weeks_paso_standard (start notice_date dob : date)
  : RedundancyWeeks :=
  let total_months := full_months_between start notice_date in
  let '(yrs, mos) := years_and_months_from_total total_months in
  let base_weeks := (3 * inject_Z yrs + (1 # 4) * inject_Z mos)%Q in
  let a := age_on dob notice_date in
  let is_45_plus := a >=? 45 in
  let weeks := (base_weeks + (if is_45_plus then 2 else 0))%Q in
  let weeks :=
    if Qgtb weeks 0 then max_float 14 (min_float 52 weeks) else weeks in
  mkRedundancyWeeks weeks yrs mos a is_45_plus.

(** ** Tax-free cap (app.py, lines 95-99 and 157-165) *)

Definition FY_CAPS : gmap string (gmap string Q) :=
  <["2025-26" := <["base" := 13100%Q]> (<["service" := 6552%Q]> ∅)]>
  (<["2024-25" := <["base" := 12524%Q]> (<["service" := 6264%Q]> ∅)]>
  (<["2023-24" := <["base" := 11985%Q]> (<["service" := 5994%Q]> ∅)]> ∅)).

Definition tax_free_cap (fy : string) (completed_years : Z)
    (base_override svc_override : option Q) : Q :=
  let base :=
    match base_override with
    | Some b => b
    | None => default 0%Q (default ∅ (FY_CAPS !! fy) !! "base")
    end in
  let svc :=
    match svc_override with
    | Some s => s
    | None => default 0%Q (default ∅ (FY_CAPS !! fy) !! "service")
    end in
  (base + svc * inject_Z completed_years)%Q.

(** ** The script's inputs, result record and "Compute" section
    (app.py, lines 121-122, 261-284, 292-367 and 372-426) *)

Definition weekly_pay (annual_salary : Q) : Q := (annual_salary / 52)%Q.

(** The values read from the sidebar widgets. *)
Record Inputs : Type := mkInputs {
  annual_salary : Q;
  dob : date;
  start_date : date;
  notice_date : date;
  notice_weeks : Q;
  notice_paid_in_lieu : bool;
  al_days : Q;
  lsl_weeks : Q;
  include_al_loading : bool;
  al_loading_pct : Q;
  fy : string;
  cap_base : Q;
  cap_service : Q;
  under_pres : bool;
  etp_tax_u : Q;
  etp_tax_o : Q;
  leave_withholding : Q
}.

Record Results : Type := mkResults {
  weekly : Q;
  day_rate : Q;
  service_years : Z;
  service_months : Z;
  age : Z;
  is_45_plus : bool;
  redundancy_weeks : Q;
  redundancy_gross : Q;
  notice_gross : Q;
  al_gross : Q;
  lsl_gross : Q;
  al_loading_gross : Q;
  leave_gross : Q;
  etp_gross : Q;
  cap : Q;
  etp_taxable : Q;
  etp_tax : Q;
  leave_tax : Q;
  notice_tax : Q;
  total_gross : Q;
  total_tax : Q;
  total_net : Q
}.

Definition compute (i : Inputs) : Results :=
  let w := weekly_pay (annual_salary i) in
  let day_rate := (w / 5)%Q in
  let r :=
    redundancy_weeks_paso_standard (start_date i) (notice_date i) (dob i) in
  let red_weeks := rw_weeks r in
  let svc_years := rw_yrs r in
  let redundancy_gross := (red_weeks * w)%Q in
  let notice_gross := (notice_weeks i * w)%Q in
  let al_gross := (al_days i * day_rate)%Q in
  let lsl_gross := (lsl_weeks i * w)%Q in
  let al_loading_gross :=
    if include_al_loading i then (al_loading_pct i * al_gross)%Q else 0%Q in
  let leave_gross := (al_gross + lsl_gross + al_loading_gross)%Q in
  let etp_gross :=
    (redundancy_gross + (if notice_paid_in_lieu i then notice_gross else 0))%Q in
  let cap :=
    tax_free_cap (fy i) svc_years (Some (cap_base i)) (Some (cap_service i)) in
  let etp_taxable := max_float 0 (etp_gross - cap)%Q in
  let etp_rate := if under_pres i then etp_tax_u i else etp_tax_o i in
  let etp_tax := (etp_taxable * etp_rate)%Q in
  let leave_tax := (leave_gross * leave_withholding i)%Q in
  let notice_tax :=
    if negb (notice_paid_in_lieu i)
    then (notice_gross * leave_withholding i)%Q else 0%Q in
  let total_gross := (redundancy_gross + notice_gross + leave_gross)%Q in
  let total_tax := (etp_tax + leave_tax + notice_tax)%Q in
  let total_net := (total_gross - total_tax)%Q in
  {| weekly := w;
     day_rate := day_rate;
     service_years := svc_years;
     service_months := rw_mos r;
     age := rw_age r;
     is_45_plus := rw_is_45_plus r;
     redundancy_weeks := red_weeks;
     redundancy_gross := redundancy_gross;
     notice_gross := notice_gross;
     al_gross := al_gross;
     lsl_gross := lsl_gross;
     al_loading_gross := al_loading_gross;
     leave_gross := leave_gross;
     etp_gross := etp_gross;
     cap := cap;
     etp_taxable := etp_taxable;
     etp_tax := etp_tax;
     leave_tax := leave_tax;
     notice_tax := notice_tax;
     total_gross := total_gross;
     total_tax := total_tax;
     total_net := total_net |}.

(** The ranges the sidebar's [number_input] widgets enforce
    ([min_value] / [max_value], app.py lines 292-367). *)
Definition number_inputs_in_range (i : Inputs) : Prop :=
  (0 <= annual_salary i
   /\ 0 <= notice_weeks i
   /\ 0 <= al_days i
   /\ 0 <= lsl_weeks i
   /\ (0 <= al_loading_pct i /\ al_loading_pct i <= 1)
   /\ 0 <= cap_base i
   /\ 0 <= cap_service i
   /\ (0 <= etp_tax_u i /\ etp_tax_u i <= 1)
   /\ (0 <= etp_tax_o i /\ etp_tax_o i <= 1)
   /\ (0 <= leave_withholding i /\ leave_withholding i <= 1))%Q.

(** The sidebar defaults with the notice date of the end-to-end example
    (2029-10-11), for a given salary and in-lieu toggle. *)
Definition sample_inputs (salary : Q) (in_lieu : bool) : Inputs :=
  {| annual_salary := salary;
     dob := mkdate 1992 8 12;
     start_date := mkdate 2021 10 11;
     notice_date := mkdate 2029 10 11;
     notice_weeks := 8;
     notice_paid_in_lieu := in_lieu;
     al_days := 5;
     lsl_weeks := 4;
     include_al_loading := false;
     al_loading_pct := 175 # 1000;
     fy := "2025-26";
     cap_base := 13100;
     cap_service := 6552;
     under_pres := true;
     etp_tax_u := 32 # 100;
     etp_tax_o := 17 # 100;
     leave_withholding := 32 # 100 |}.

Definition example_inputs : Inputs := sample_inputs 158000 true.

(** ** The same code over binary64

    The model above computes with exact rationals.  Module [B64] is the
    same code with Python's floats as IEEE 754 binary64 numbers (the
    primitive [float]), rounding included: it shows where a law of the
    exact model fails in the program and where it survives. *)

Module B64.

Local Open Scope float_scope.

(** [float(n)] for an int [n], rounded to nearest, ties to even.  (Python
    raises [OverflowError] beyond the binary64 range; no year or month
    count comes near it.) *)
Definition float_of_int (n : Z) : float :=
  SF2Prim (binary_normalize prec emax n 0 false).

(** [max(a, b)] and [min(a, b)] on floats. *)
Definition max_float (a b : float) : float := if a <? b then b else a.
Definition min_float (a b : float) : float := if b <? a then b else a.

Record RedundancyWeeks : Type := mkRedundancyWeeks {
  rw_weeks : float;
  rw_yrs : Z;
  rw_mos : Z;
  rw_age : Z;
  rw_is_45_plus : bool
}.

Definition redundancy_weeks_paso_standard (start notice_date dob : date)
  : RedundancyWeeks :=
  let total_months := full_months_between start notice_date in
  let '(yrs, mos) := years_and_months_from_total total_months in
  let base_weeks := 3 * float_of_int yrs + 0.25 * float_of_int mos in
  let a := age_on dob notice_date in
  let is_45_plus := (a >=? 45)%Z in
  let weeks := base_weeks + (if is_45_plus then 2 else 0) in
  let weeks :=
    if 0 <? weeks then max_float 14 (min_float 52 weeks) else weeks in
  mkRedundancyWeeks weeks yrs mos a is_45_plus.

Definition FY_CAPS : gmap string (gmap string float) :=
  <["2025-26" := <["base" := 13100]> (<["service" := 6552]> ∅)]>
  (<["2024-25" := <["base" := 12524]> (<["service" := 6264]> ∅)]>
  (<["2023-24" := <["base" := 11985]> (<["service" := 5994]> ∅)]> ∅)).

Definition tax_free_cap (fy : string) (completed_years : Z)
    (base_override svc_override : option float) : float :=
  let base :=
    match base_override with
    | Some b => b
    | None => default 0 (default ∅ (FY_CAPS !! fy) !! "base")
    end in
  let svc :=
    match svc_override with
    | Some s => s
    | None => default 0 (default ∅ (FY_CAPS !! fy) !! "service")
    end in
  base + svc * float_of_int completed_years.

Definition weekly_pay (annual_salary : float) : float := annual_salary / 52.

Record Inputs : Type := mkInputs {
  annual_salary : float;
  dob : date;
  start_date : date;
  notice_date : date;
  notice_weeks : float;
  notice_paid_in_lieu : bool;
  al_days : float;
  lsl_weeks : float;
  include_al_loading : bool;
  al_loading_pct : float;
  fy : string;
  cap_base : float;
  cap_service : float;
  under_pres : bool;
  etp_tax_u : float;
  etp_tax_o : float;
  leave_withholding : float
}.

Record Results : Type := mkResults {
  weekly : float;
  day_rate : float;
  service_years : Z;
  service_months : Z;
  age : Z;
  is_45_plus : bool;
  redundancy_weeks : float;
  redundancy_gross : float;
  notice_gross : float;
  al_gross : float;
  lsl_gross : float;
  al_loading_gross : float;
  leave_gross : float;
  etp_gross : float;
  cap : float;
  etp_taxable : float;
  etp_tax : float;
  leave_tax : float;
  notice_tax : float;
  total_gross : float;
  total_tax : float;
  total_net : float
}.

Definition compute (i : Inputs) : Results :=
  let w := weekly_pay (annual_salary i) in
  let day_rate := w / 5 in
  let r :=
    redundancy_weeks_paso_standard (start_date i) (notice_date i) (dob i) in
  let red_weeks := rw_weeks r in
  let svc_years := rw_yrs r in
  let redundancy_gross := red_weeks * w in
  let notice_gross := notice_weeks i * w in
  let al_gross := al_days i * day_rate in
  let lsl_gross := lsl_weeks i * w in
  let al_loading_gross :=
    if include_al_loading i then al_loading_pct i * al_gross else 0 in
  let leave_gross := al_gross + lsl_gross + al_loading_gross in
  let etp_gross :=
    redundancy_gross + (if notice_paid_in_lieu i then notice_gross else 0) in
  let cap :=
    tax_free_cap (fy i) svc_years (Some (cap_base i)) (Some (cap_service i)) in
  let etp_taxable := max_float 0 (etp_gross - cap) in
  let etp_rate := if under_pres i then etp_tax_u i else etp_tax_o i in
  let etp_tax := etp_taxable * etp_rate in
  let leave_tax := leave_gross * leave_withholding i in
  let notice_tax :=
    if negb (notice_paid_in_lieu i)
    then notice_gross * leave_withholding i else 0 in
  let total_gross := redundancy_gross + notice_gross + leave_gross in
  let total_tax := etp_tax + leave_tax + notice_tax in
  let total_net := total_gross - total_tax in
  {| weekly := w;
     day_rate := day_rate;
     service_years := svc_years;
     service_months := rw_mos r;
     age := rw_age r;
     is_45_plus := rw_is_45_plus r;
     redundancy_weeks := red_weeks;
     redundancy_gross := redundancy_gross;
     notice_gross := notice_gross;
     al_gross := al_gross;
     lsl_gross := lsl_gross;
     al_loading_gross := al_loading_gross;
     leave_gross := leave_gross;
     etp_gross := etp_gross;
     cap := cap;
     etp_taxable := etp_taxable;
     etp_tax := etp_tax;
     leave_tax := leave_tax;
     notice_tax := notice_tax;
     total_gross := total_gross;
     total_tax := total_tax;
     total_net := total_net |}.

(** The sidebar defaults for a given notice date, in-lieu toggle, cap
    constants and rates. *)
Definition sample_inputs (notice : date) (in_lieu : bool)
    (cap_b cap_s rate_u rate_o rate_l : float) : Inputs :=
  {| annual_salary := 158000;
     dob := mkdate 1992 8 12;
     start_date := mkdate 2021 10 11;
     notice_date := notice;
     notice_weeks := 8;
     notice_paid_in_lieu := in_lieu;
     al_days := 5;
     lsl_weeks := 4;
     include_al_loading := false;
     al_loading_pct := 0.175;
     fy := "2025-26";
     cap_base := cap_b;
     cap_service := cap_s;
     under_pres := true;
     etp_tax_u := rate_u;
     etp_tax_o := rate_o;
     leave_withholding := rate_l |}.

End B64.

(** ** Presentation of the results
    (app.py, lines 118-119, 167-172, 220-224, 401, 435-466, 586-600,
    609-611 and 629-638)

    The tables, the chart data and the KPI cards the script builds from the
    computed figures.  Python's [format(x, spec)] on floats, which every
    f-string below goes through, is a parameter; the styling constants of
    the chart and the HTML of a card are left out: a card is represented
    by the call that draws it. *)

Section Presentation.

Variable format : string -> Q -> string.

Definition money (x : Q) : string := "$" +:+ format ",.2f" x.

Definition fmt_currency (v : Q) : string := "$" +:+ format ",.2f" v.

Definition fmt_float (v : Q) (dp : Z) : string :=
  format ("." +:+ pretty dp +:+ "f") v.

(** [Series.sum()] of a float column. *)
Definition column_sum (l : list Q) : Q := fold_left Qplus l 0%Q.

(** One dict of [rows]: a row of the cash components table. *)
Record ComponentRow : Type := mkComponentRow {
  row_Type : string;
  row_Rate : string;
  row_Qty : string;
  row_Gross : Q
}.

Definition rows (i : Inputs) (res : Results) : list ComponentRow :=
  [ mkComponentRow "Redundancy pay" (money (weekly res))
      (format ".2f" (redundancy_weeks res) +:+ " weeks")
      (redundancy_gross res);
    mkComponentRow "Notice pay" (money (weekly res))
      (format ".2f" (notice_weeks i) +:+ " weeks") (notice_gross res);
    mkComponentRow "Annual leave payout" (money (day_rate res))
      (format ".1f" (al_days i) +:+ " days") (al_gross res);
    mkComponentRow "LSL payout" (money (weekly res))
      (format ".2f" (lsl_weeks i) +:+ " weeks") (lsl_gross res);
    mkComponentRow "Annual leave loading" ""
      (if include_al_loading i then format ".3f" (al_loading_pct i)
       else "Off")
      (al_loading_gross res) ].

(** The [Percent] column added to the components table. *)
Definition percent_column (df_components : list ComponentRow) : list Q :=
  let total_gross_components := column_sum (map row_Gross df_components) in
  if Qgtb total_gross_components 0
  then map (fun r => (row_Gross r / total_gross_components * 100)%Q)
         df_components
  else map (fun _ => 0%Q) df_components.

(** The data handed to the pie chart and its annotation. *)
Record Figure : Type := mkFigure {
  pie_labels : list string;
  pie_values : list Q;
  annotation_text : string;
  title_text : string
}.

(** [df] holds the [Type] and [Gross] columns. *)
Definition donut_chart (df : list (string * Q)) (title : string)
  : option Figure :=
  let chart_df := List.filter (fun r => Qgtb (snd r) 0) df in
  let total := column_sum (map snd chart_df) in
  if Qle_bool total 0 || (match chart_df with [] => true | _ => false end)
  then None
  else Some (mkFigure (map fst chart_df) (map snd chart_df)
               ("Total<br>" +:+ money total) title).

(** [df_components[["Type", "Gross"]]]. *)
Definition type_and_gross (df_components : list ComponentRow)
  : list (string * Q) :=
  map (fun r => (row_Type r, row_Gross r)) df_components.

(** One dict of [tax_rows]. *)
Record TaxRow : Type := mkTaxRow { row_Bucket : string; row_Amount : Q }.

Definition tax_rows (i : Inputs) (res : Results) : list TaxRow :=
  let etp_rate := if under_pres i then etp_tax_u i else etp_tax_o i in
  let tax_rows :=
    [ mkTaxRow "ETP pool gross (redundancy + notice in lieu)" (etp_gross res);
      mkTaxRow "Tax free cap" (cap res);
      mkTaxRow "Taxable ETP" (etp_taxable res);
      mkTaxRow ("ETP tax (@ " +:+ format ".0%" etp_rate +:+ ")") (etp_tax res);
      mkTaxRow "Leave gross (AL + LSL + loading)" (leave_gross res);
      mkTaxRow ("Leave withholding (@ "
                +:+ format ".0%" (leave_withholding i) +:+ ")")
        (leave_tax res) ] in
  if negb (notice_paid_in_lieu i)
  then tax_rows
       ++ [ mkTaxRow ("Notice withholding (@ "
                      +:+ format ".0%" (leave_withholding i) +:+ ")")
              (notice_tax res) ]
  else tax_rows.

(** The six KPI values of a run. *)
Definition kpi_now (i : Inputs) (res : Results) : gmap string Q :=
  let unused_al_weeks := (al_days i / 5)%Q in
  <["weekly_pay" := weekly res]>
  (<["redundancy_weeks" := redundancy_weeks res]>
  (<["unused_al_weeks" := unused_al_weeks]>
  (<["unused_lsl_weeks" := lsl_weeks i]>
  (<["gross_total" := total_gross res]>
  (<["net_total" := total_net res]> ∅))))).

(** What [render_kpi] draws into its placeholder: either it calls
    [animate_number(placeholder, label, old, new, kind, gold)] or it
    writes the card [kpi_card_html(label, val, gold)]. *)
Inductive Rendered : Type :=
  | Animated (label : string) (old new : Q) (kind : string) (gold : bool)
  | Static (label : string) (val : string) (gold : bool).

(** [kpi_now[key]] raises [KeyError] on a missing key: [None]. *)
Definition render_kpi (kpi_prev kpi_now : gmap string Q)
    (key label kind : string) (gold : bool) : option Rendered :=
  match kpi_now !! key with
  | None => None
  | Some now =>
      let old := default now (kpi_prev !! key) in
      let new := now in
      if negb (Qeq_bool old new)
      then Some (Animated label old new kind gold)
      else
        let val :=
          if String.eqb kind "currency" then fmt_currency new
          else fmt_float new 2 in
        Some (Static label val gold)
  end.

(** The KPI part of one run of the script (lines 444-466):
    [st.session_state] goes in and comes out, the six cards are drawn. *)
Definition kpi_cards (session_state : gmap string (gmap string Q))
    (kpi_now : gmap string Q)
  : list (option Rendered) * gmap string (gmap string Q) :=
  let session_state :=
    match session_state !! "kpi_prev" with
    | None => <["kpi_prev" := kpi_now]> session_state
    | Some _ => session_state
    end in
  let kpi_prev := default ∅ (session_state !! "kpi_prev") in
  let cards :=
    [ render_kpi kpi_prev kpi_now "weekly_pay" "Weekly pay" "currency" false;
      render_kpi kpi_prev kpi_now "redundancy_weeks" "Redundancy weeks"
        "float" false;
      render_kpi kpi_prev kpi_now "unused_al_weeks"
        "Unused annual leave (weeks)" "float" false;
      render_kpi kpi_prev kpi_now "unused_lsl_weeks" "Unused LSL (weeks)"
        "float" false;
      render_kpi kpi_prev kpi_now "gross_total" "Gross total" "currency" true;
      render_kpi kpi_prev kpi_now "net_total" "Estimated net" "currency" true ]
  in
  (cards, <["kpi_prev" := kpi_now]> session_state).

End Presentation.

(** A card that was drawn without animation. *)
Definition is_static (c : option Rendered) : Prop :=
  match c with
  | Some (Static _ _ _) => True
  | _ => False
  end.

(** ** Specification-side definitions

    The quantities the specification names, used to state the properties
    below; none of them is used by the embedding of the code above. *)

(** The calendar-month difference with the partial final month removed. *)
Definition month_diff (start end_ : date) : Z :=
  (year end_ - year start) * 12 + (month end_ - month start)
  - (if day end_ <? day start then 1 else 0).

(** The spec's [clamp(x, lo, hi)]. *)
Definition clamp (x lo hi : Q) : Q := Qmax lo (Qmin hi x).

(** The spec's unclamped value: [3*Y + 0.25*M], plus 2 from age 45. *)
Definition raw_weeks (Y M a : Z) : Q :=
  (3 * inject_Z Y + (1 # 4) * inject_Z M + (if 45 <=? a then 2 else 0))%Q.

(** The constants the cap is computed from: an explicit override wins,
    otherwise the fiscal-year table, otherwise 0. *)
Definition resolved_base (fy : string) (base_override : option Q) : Q :=
  default (default 0%Q (default ∅ (FY_CAPS !! fy) !! "base")) base_override.

Definition resolved_service (fy : string) (svc_override : option Q) : Q :=
  default (default 0%Q (default ∅ (FY_CAPS !! fy) !! "service")) svc_override.

(** Months since year 0, the unit [full_months_between] counts in. *)
Definition month_index (d : date) : Z := year d * 12 + month d.

(** The date's [n]-th anniversary, as a [(year, month, day)] triple (for a
    29 February it need not be a calendar date; only its order matters). *)
Definition anniversary (d : date) (n : Z) : date :=
  mkdate (year d + n) (month d) (day d).

(** Inputs that differ from [i] in one widget only. *)
Definition with_cap_base (b : Q) (i : Inputs) : Inputs :=
  {| annual_salary := annual_salary i; dob := dob i;
     start_date := start_date i; notice_date := notice_date i;
     notice_weeks := notice_weeks i;
     notice_paid_in_lieu := notice_paid_in_lieu i;
     al_days := al_days i; lsl_weeks := lsl_weeks i;
     include_al_loading := include_al_loading i;
     al_loading_pct := al_loading_pct i;
     fy := fy i;
     cap_base := b; cap_service := cap_service i;
     under_pres := under_pres i;
     etp_tax_u := etp_tax_u i; etp_tax_o := etp_tax_o i;
     leave_withholding := leave_withholding i |}.

Definition with_notice_paid_in_lieu (b : bool) (i : Inputs) : Inputs :=
  {| annual_salary := annual_salary i; dob := dob i;
     start_date := start_date i; notice_date := notice_date i;
     notice_weeks := notice_weeks i;
     notice_paid_in_lieu := b;
     al_days := al_days i; lsl_weeks := lsl_weeks i;
     include_al_loading := include_al_loading i;
     al_loading_pct := al_loading_pct i;
     fy := fy i;
     cap_base := cap_base i; cap_service := cap_service i;
     under_pres := under_pres i;
     etp_tax_u := etp_tax_u i; etp_tax_o := etp_tax_o i;
     leave_withholding := leave_withholding i |}.

(** The completed-years counts that two calendar dates (years 1 to 9999)
    can give. *)
Definition year_counts : list Z := map Z.of_nat (seq 0 (Z.to_nat 9999)).

(** [cap(Y+1) == cap(Y) + svc] as the program evaluates it, in binary64. *)
Definition cap_step_b64 (fy : string) (bo so : option float) (svc : float)
    (Y : Z) : bool :=
  (B64.tax_free_cap fy (Y + 1) bo so =? B64.tax_free_cap fy Y bo so + svc)%float.

(** The step law for the table constants of [fy], both when they are
    looked up and when they are passed as overrides. *)
Definition cap_steps_b64 (fy : string) (Y : Z) : bool :=
  let base := default 0%float (default ∅ (B64.FY_CAPS !! fy) !! "base") in
  let svc := default 0%float (default ∅ (B64.FY_CAPS !! fy) !! "service") in
  cap_step_b64 fy None None svc Y
  && cap_step_b64 fy (Some base) (Some svc) svc Y.

(** The defaults the two cap widgets take from the selected income year
    (app.py, lines 349-350): [FY_CAPS[fy]["base"]] and
    [FY_CAPS[fy]["service"]]; a missing key raises [KeyError]: [None]. *)
Definition cap_widget_defaults (fy : string) : option (Q * Q) :=
  match FY_CAPS !! fy with
  | None => None
  | Some d =>
      match d !! "base", d !! "service" with
      | Some b, Some s => Some (b, s)
      | _, _ => None
      end
  end.

(** What lines 152-153 make of the unclamped weeks. *)
Definition final_weeks (x : Q) : Q :=
  if Qgtb x 0 then max_float 14 (min_float 52 x) else x.

(** * Properties *)

(** ** Built-ins *)

Lemma max_int_Zmax (a b : Z) : max_int a b = Z.max a b.
Proof. unfold max_int. destruct (Z.gtb_spec b a); lia. Qed.

Lemma Qgtb_true (b a : Q) : Qgtb b a = true <-> (a < b)%Q.
Proof.
  unfold Qgtb. rewrite negb_true_iff, <- not_true_iff_false, Qle_bool_iff.
  split; [apply Qnot_le_lt | apply Qlt_not_le].
Qed.

Lemma Qgtb_false (b a : Q) : Qgtb b a = false <-> (b <= a)%Q.
Proof.
  unfold Qgtb. rewrite negb_false_iff. apply Qle_bool_iff.
Qed.

Lemma max_float_Qmax (a b : Q) : (max_float a b == Qmax a b)%Q.
Proof.
  unfold max_float. destruct (Qgtb b a) eqn:E.
  - apply Qgtb_true in E. symmetry. apply Q.max_r. lra.
  - apply Qgtb_false in E. symmetry. apply Q.max_l. exact E.
Qed.

Lemma min_float_Qmin (a b : Q) : (min_float a b == Qmin a b)%Q.
Proof.
  unfold min_float. destruct (Qgtb a b) eqn:E.
  - apply Qgtb_true in E. symmetry. apply Q.min_r. lra.
  - apply Qgtb_false in E. symmetry. apply Q.min_l. exact E.
Qed.

(** ** Dates *)

Lemma tuple_lt_spec (a b : Z * Z) :
  tuple_lt a b = true <-> fst a < fst b \/ (fst a = fst b /\ snd a < snd b).
Proof.
  unfold tuple_lt.
  rewrite orb_true_iff, andb_true_iff, !Z.ltb_lt, Z.eqb_eq. reflexivity.
Qed.

Lemma date_lt_spec (a b : date) :
  date_lt a b = true <->
  year a < year b
  \/ (year a = year b
      /\ (month a < month b \/ (month a = month b /\ day a < day b))).
Proof.
  unfold date_lt.
  rewrite orb_true_iff, andb_true_iff, tuple_lt_spec, Z.ltb_lt, Z.eqb_eq.
  reflexivity.
Qed.

Lemma date_lt_false (a b : date) :
  date_lt a b = false <->
  year b < year a
  \/ (year b = year a
      /\ (month b < month a \/ (month b = month a /\ day b <= day a))).
Proof.
  rewrite <- not_true_iff_false, date_lt_spec. lia.
Qed.

Lemma date_le_spec (a b : date) :
  date_le a b = true <->
  year a < year b
  \/ (year a = year b
      /\ (month a < month b \/ (month a = month b /\ day a <= day b))).
Proof.
  unfold date_le. rewrite negb_true_iff. apply date_lt_false.
Qed.

Lemma valid_date_month (d : date) :
  valid_date d = true -> 1 <= month d <= 12.
Proof.
  unfold valid_date. rewrite !andb_true_iff, !Z.leb_le. lia.
Qed.

Lemma full_months_between_unfold (start end_ : date) :
  full_months_between start end_ =
  if date_lt end_ start then 0 else Z.max 0 (month_diff start end_).
Proof.
  unfold full_months_between, month_diff.
  destruct (date_lt end_ start); [reflexivity |].
  rewrite max_int_Zmax. destruct (day end_ <? day start); f_equal; lia.
Qed.

Lemma full_months_between_nonneg (start end_ : date) :
  0 <= full_months_between start end_.
Proof.
  rewrite full_months_between_unfold.
  destruct (date_lt end_ start); lia.
Qed.

(** For real calendar dates the floor at 0 never fires once [end >= start]. *)
Lemma month_diff_nonneg (start end_ : date) :
  1 <= month start <= 12 -> 1 <= month end_ <= 12 ->
  date_lt end_ start = false ->
  0 <= month_diff start end_.
Proof.
  intros Hs He Hlt. apply date_lt_false in Hlt. unfold month_diff.
  destruct (Z.ltb_spec (day end_) (day start)); lia.
Qed.

Lemma month_diff_mono (start e1 e2 : date) :
  1 <= month e1 <= 12 -> 1 <= month e2 <= 12 ->
  date_le e1 e2 = true ->
  month_diff start e1 <= month_diff start e2.
Proof.
  intros H1 H2 Hle. apply date_le_spec in Hle. unfold month_diff.
  destruct (Z.ltb_spec (day e1) (day start));
    destruct (Z.ltb_spec (day e2) (day start)); lia.
Qed.

Lemma date_lt_le_trans_false (start e1 e2 : date) :
  date_lt e1 start = false -> date_le e1 e2 = true ->
  date_lt e2 start = false.
Proof.
  rewrite !date_lt_false, date_le_spec. lia.
Qed.

(** C6. [full_months_between] returns 0 when [end < start]; otherwise it
    returns [(end.year - start.year) * 12 + (end.month - start.month)],
    minus 1 when [end.day < start.day], floored at 0.  The count is by
    calendar fields only: no day count enters it. *)
Theorem full_months_between_calendar (start end_ : date) :
  (date_lt end_ start = true -> full_months_between start end_ = 0)
  /\ (date_lt end_ start = false ->
      full_months_between start end_ =
      Z.max 0 ((year end_ - year start) * 12 + (month end_ - month start)
               - (if day end_ <? day start then 1 else 0))).
Proof.
  rewrite full_months_between_unfold. unfold month_diff.
  split; intros ->; reflexivity.
Qed.

Lemma full_months_between_calendar_witness :
  full_months_between (mkdate 2024 1 31) (mkdate 2023 12 31) = 0
  /\ full_months_between (mkdate 2024 1 31) (mkdate 2024 3 30) = 1.
Proof.
  split.
  - apply (proj1 (full_months_between_calendar
                    (mkdate 2024 1 31) (mkdate 2023 12 31))). reflexivity.
  - apply (proj2 (full_months_between_calendar
                    (mkdate 2024 1 31) (mkdate 2024 3 30))). reflexivity.
Defined.

(** C8. For a fixed start date, [full_months_between] is monotonically
    non-decreasing in the end date. *)
Theorem full_months_between_mono (start e1 e2 : date) :
  valid_date e1 = true -> valid_date e2 = true ->
  date_le e1 e2 = true ->
  full_months_between start e1 <= full_months_between start e2.
Proof.
  intros V1 V2 Hle.
  apply valid_date_month in V1. apply valid_date_month in V2.
  rewrite !full_months_between_unfold.
  destruct (date_lt e1 start) eqn:E1.
  - destruct (date_lt e2 start); lia.
  - rewrite (date_lt_le_trans_false start e1 e2 E1 Hle).
    pose proof (month_diff_mono start e1 e2 V1 V2 Hle). lia.
Qed.

Lemma full_months_between_mono_witness :
  full_months_between (mkdate 2021 10 11) (mkdate 2029 10 10)
  <= full_months_between (mkdate 2021 10 11) (mkdate 2029 10 11).
Proof.
  apply (full_months_between_mono
           (mkdate 2021 10 11) (mkdate 2029 10 10) (mkdate 2029 10 11));
    reflexivity.
Defined.

(** ** Redundancy weeks *)

Lemma clamp_bounds (x : Q) : (14 <= clamp x 14 52 /\ clamp x 14 52 <= 52)%Q.
Proof.
  unfold clamp. split.
  - apply Q.le_max_l.
  - apply Q.max_lub; [discriminate | apply Q.le_min_l].
Qed.

Lemma source_clamp (x : Q) :
  (max_float 14 (min_float 52 x) == clamp x 14 52)%Q.
Proof.
  unfold clamp. rewrite max_float_Qmax.
  apply Q.max_compat; [reflexivity | apply min_float_Qmin].
Qed.

Lemma service_split_nonneg (total : Z) :
  0 <= total -> 0 <= total / 12 /\ 0 <= total mod 12 < 12.
Proof.
  intros H. split; [apply Z.div_pos; lia | apply Z.mod_pos_bound; lia].
Qed.

Lemma inject_Z_nonneg (z : Z) : 0 <= z -> (0 <= inject_Z z)%Q.
Proof. intros H. unfold Qle, inject_Z. simpl. lia. Qed.

Lemma raw_weeks_nonneg (Y M a : Z) :
  0 <= Y -> 0 <= M -> (0 <= raw_weeks Y M a)%Q.
Proof.
  intros HY HM. unfold raw_weeks.
  apply inject_Z_nonneg in HY. apply inject_Z_nonneg in HM.
  destruct (45 <=? a); lra.
Qed.

Lemma redundancy_weeks_unfold (start notice dob : date) :
  let total := full_months_between start notice in
  let raw := raw_weeks (total / 12) (total mod 12) (age_on dob notice) in
  redundancy_weeks_paso_standard start notice dob =
  mkRedundancyWeeks
    (if Qgtb raw 0 then max_float 14 (min_float 52 raw) else raw)
    (total / 12) (total mod 12) (age_on dob notice)
    (45 <=? age_on dob notice).
Proof.
  unfold redundancy_weeks_paso_standard, years_and_months_from_total,
    raw_weeks.
  cbv zeta. rewrite Z.geb_leb. reflexivity.
Qed.

Lemma redundancy_weeks_nonneg (start notice dob : date) :
  (0 <= rw_weeks (redundancy_weeks_paso_standard start notice dob))%Q
  /\ 0 <= rw_yrs (redundancy_weeks_paso_standard start notice dob).
Proof.
  rewrite redundancy_weeks_unfold. cbn [rw_weeks rw_yrs].
  pose proof (full_months_between_nonneg start notice) as Ht.
  destruct (service_split_nonneg _ Ht) as [HY HM].
  split; [| exact HY].
  destruct (Qgtb _ 0) eqn:E.
  - rewrite source_clamp. pose proof (clamp_bounds
      (raw_weeks (full_months_between start notice / 12)
         (full_months_between start notice mod 12) (age_on dob notice))).
    lra.
  - apply raw_weeks_nonneg; lia.
Qed.

(** C1. With [Y] completed years and [M] remainder months of service and
    age [a] on the notice date, the unclamped value is
    [3*Y + 0.25*M] plus 2 exactly when [a >= 45]; the returned weeks are
    that value clamped into [14, 52] when it is strictly positive and
    left at 0 when it is 0.  Hence a positive result lies in [14, 52]. *)
Theorem redundancy_weeks_formula (start notice dob : date) :
  let r := redundancy_weeks_paso_standard start notice dob in
  let total := full_months_between start notice in
  let Y := total / 12 in
  let M := total mod 12 in
  let a := age_on dob notice in
  let base := (3 * inject_Z Y + (1 # 4) * inject_Z M)%Q in
  let raw := (base + (if 45 <=? a then 2 else 0))%Q in
  rw_yrs r = Y /\ rw_mos r = M /\ rw_age r = a
  /\ (rw_is_45_plus r = true <-> 45 <= a)
  /\ (0 <= raw)%Q
  /\ ((0 < raw)%Q -> (rw_weeks r == clamp raw 14 52)%Q)
  /\ ((raw == 0)%Q -> (rw_weeks r == 0)%Q)
  /\ ((0 < rw_weeks r)%Q -> (14 <= rw_weeks r /\ rw_weeks r <= 52)%Q).
Proof.
  cbv zeta. rewrite redundancy_weeks_unfold.
  cbn [rw_weeks rw_yrs rw_mos rw_age rw_is_45_plus].
  fold (raw_weeks (full_months_between start notice / 12)
          (full_months_between start notice mod 12) (age_on dob notice)).
  set (raw := raw_weeks _ _ _).
  assert (Hraw : (0 <= raw)%Q).
  { pose proof (full_months_between_nonneg start notice) as Ht.
    destruct (service_split_nonneg _ Ht). apply raw_weeks_nonneg; lia. }
  split; [reflexivity |]. split; [reflexivity |]. split; [reflexivity |].
  split; [apply Z.leb_le |]. split; [exact Hraw |].
  destruct (Qgtb raw 0) eqn:E.
  - apply Qgtb_true in E.
    split; [intros _; apply source_clamp |].
    split; [intros Hz; lra |].
    intros _. rewrite source_clamp. apply clamp_bounds.
  - apply Qgtb_false in E.
    split; [intros Hpos; lra |].
    split; [intros Hz; exact Hz |].
    intros Hpos. lra.
Qed.

Lemma redundancy_weeks_formula_witness :
  let r := redundancy_weeks_paso_standard
             (mkdate 2015 1 1) (mkdate 2024 1 1) (mkdate 1994 1 1) in
  (rw_weeks r == 27)%Q /\ (14 <= rw_weeks r /\ rw_weeks r <= 52)%Q.
Proof.
  destruct (redundancy_weeks_formula
              (mkdate 2015 1 1) (mkdate 2024 1 1) (mkdate 1994 1 1))
    as (_ & _ & _ & _ & _ & Hclamp & _ & Hband).
  split.
  - eapply Qeq_trans; [apply Hclamp; reflexivity | reflexivity].
  - apply Hband. reflexivity.
Defined.

Lemma full_months_between_same_day (d : date) : full_months_between d d = 0.
Proof.
  rewrite full_months_between_unfold.
  assert (date_lt d d = false) as -> by (apply date_lt_false; lia).
  unfold month_diff. rewrite Z.ltb_irrefl. lia.
Qed.

Lemma same_day_weeks_value (d dob : date) :
  (rw_weeks (redundancy_weeks_paso_standard d d dob)
   == if 45 <=? age_on dob d then 14 else 0)%Q.
Proof.
  rewrite redundancy_weeks_unfold, full_months_between_same_day.
  cbn [rw_weeks]. unfold raw_weeks.
  destruct (45 <=? age_on dob d); reflexivity.
Qed.

(** On the first day of service an employee aged 45 or more gets the
    2-week bonus, which is positive and is therefore lifted to the floor. *)
Lemma zero_service_45_plus (d dob : date) :
  45 <= age_on dob d ->
  (rw_weeks (redundancy_weeks_paso_standard d d dob) == 14)%Q.
Proof.
  intros H. rewrite same_day_weeks_value.
  apply Z.leb_le in H as ->. reflexivity.
Qed.

(** C2 as stated fails: start = notice = 2024-01-01 and date of birth
    1970-01-01 (age 54) give 0 completed months but 14 weeks, not 0. *)
Lemma zero_service_counterexample :
  let d := mkdate 2024 1 1 in
  let r := redundancy_weeks_paso_standard d d (mkdate 1970 1 1) in
  full_months_between d d = 0
  /\ rw_age r = 54
  /\ (rw_weeks r == 14)%Q
  /\ ~ (rw_weeks r == 0)%Q.
Proof.
  cbv zeta. split; [reflexivity |]. split; [reflexivity |].
  split; [reflexivity | discriminate].
Qed.

(** C2 (amended). If the start date equals the notice date then the
    completed months are 0, and for an employee younger than 45 on the
    notice date the redundancy weeks are exactly 0: the 14-week floor is
    not applied. *)
Theorem zero_service_weeks (d dob : date) :
  age_on dob d < 45 ->
  full_months_between d d = 0
  /\ rw_yrs (redundancy_weeks_paso_standard d d dob) = 0
  /\ rw_mos (redundancy_weeks_paso_standard d d dob) = 0
  /\ (rw_weeks (redundancy_weeks_paso_standard d d dob) == 0)%Q.
Proof.
  intros H. split; [apply full_months_between_same_day |].
  rewrite same_day_weeks_value.
  rewrite redundancy_weeks_unfold, full_months_between_same_day.
  cbn [rw_yrs rw_mos].
  split; [reflexivity |]. split; [reflexivity |].
  apply Z.leb_gt in H as ->. reflexivity.
Qed.

Lemma zero_service_weeks_witness :
  (rw_weeks (redundancy_weeks_paso_standard
               (mkdate 2024 1 1) (mkdate 2024 1 1) (mkdate 1990 1 1)) == 0)%Q.
Proof.
  apply (zero_service_weeks (mkdate 2024 1 1) (mkdate 1990 1 1)).
  reflexivity.
Defined.

(** ** Tax-free cap *)

Lemma resolved_override (fy : string) (b s : Q) :
  resolved_base fy (Some b) = b /\ resolved_service fy (Some s) = s.
Proof. split; reflexivity. Qed.

Lemma resolved_configured :
  (resolved_base "2025-26" None = 13100%Q
   /\ resolved_service "2025-26" None = 6552%Q)
  /\ (resolved_base "2024-25" None = 12524%Q
      /\ resolved_service "2024-25" None = 6264%Q)
  /\ (resolved_base "2023-24" None = 11985%Q
      /\ resolved_service "2023-24" None = 5994%Q).
Proof. repeat split; reflexivity. Qed.

Lemma FY_CAPS_dom :
  dom FY_CAPS = ({["2025-26"; "2024-25"; "2023-24"]} : gset string).
Proof. unfold FY_CAPS. rewrite !dom_insert_L, dom_empty_L. set_solver. Qed.

Lemma resolved_unknown (fy : string) :
  fy ∉ dom FY_CAPS ->
  resolved_base fy None = 0%Q /\ resolved_service fy None = 0%Q.
Proof.
  intros H. apply not_elem_of_dom in H.
  unfold resolved_base, resolved_service. rewrite H. split; reflexivity.
Qed.

Lemma tax_free_cap_resolved (fy : string) (Y : Z) (bo so : option Q) :
  tax_free_cap fy Y bo so
  = (resolved_base fy bo + resolved_service fy so * inject_Z Y)%Q.
Proof. destruct bo, so; reflexivity. Qed.

Lemma year_counts_spec (Y : Z) : 0 <= Y <= 9998 -> In Y year_counts.
Proof.
  intros H. unfold year_counts. apply in_map_iff.
  exists (Z.to_nat Y). split; [lia |]. apply in_seq. lia.
Qed.

Lemma B64_configured_keys (f : string) :
  is_Some (B64.FY_CAPS !! f) ->
  f = "2025-26" \/ f = "2024-25" \/ f = "2023-24".
Proof.
  unfold B64.FY_CAPS. intros H.
  destruct (decide (f = "2025-26")) as [| N1]; [auto |].
  destruct (decide (f = "2024-25")) as [| N2]; [auto |].
  destruct (decide (f = "2023-24")) as [| N3]; [auto |].
  rewrite !lookup_insert_ne, lookup_empty in H by congruence.
  destruct H; discriminate.
Qed.

Lemma cap_steps_b64_table :
  forallb (cap_steps_b64 "2025-26") year_counts = true
  /\ forallb (cap_steps_b64 "2024-25") year_counts = true
  /\ forallb (cap_steps_b64 "2023-24") year_counts = true.
Proof. vm_compute. repeat split; reflexivity. Qed.

(** C7 as stated fails in the program's arithmetic: with the per-year
    constant overridden by 6552.1 (base 13100), [cap(2)] is
    26204.200000000001 but [cap(1) + 6552.1] is 26204.199999999997. *)
Lemma tax_free_cap_step_counterexample :
  (B64.tax_free_cap "2025-26" 2 (Some 13100) (Some 6552.1)
   =? B64.tax_free_cap "2025-26" 1 (Some 13100) (Some 6552.1) + 6552.1)%float
  = false
  /\ (B64.tax_free_cap "2025-26" 1 (Some 13100) (Some 6552.1) + 6552.1
      <? B64.tax_free_cap "2025-26" 2 (Some 13100) (Some 6552.1))%float
     = true.
Proof. vm_compute. split; reflexivity. Qed.

(** C7 (amended). In exact arithmetic the tax-free cap is the resolved
    base constant plus the resolved per-service-year constant times the
    completed years, so one more completed year adds exactly the
    per-service-year constant; the payout computation feeds it the
    completed years only, never the remainder months.  In the program's
    binary64 arithmetic the step identity [cap(Y+1) == cap(Y) + svc]
    holds for the constants of every configured fiscal-year key, looked up
    or passed as overrides, and every completed-years count that calendar
    dates can give (0 to 9998). *)
Theorem tax_free_cap_linear (fy : string) (Y : Z) (bo so : option Q) :
  (tax_free_cap fy Y bo so
   == resolved_base fy bo + resolved_service fy so * inject_Z Y)%Q
  /\ (tax_free_cap fy (Y + 1) bo so
      == tax_free_cap fy Y bo so + resolved_service fy so)%Q
  /\ (forall i : Inputs,
        cap (compute i)
        == cap_base i + cap_service i * inject_Z (service_years (compute i)))%Q
  /\ (is_Some (B64.FY_CAPS !! fy) -> 0 <= Y <= 9998 ->
      let base := default 0%float (default ∅ (B64.FY_CAPS !! fy) !! "base") in
      let svc :=
        default 0%float (default ∅ (B64.FY_CAPS !! fy) !! "service") in
      (B64.tax_free_cap fy (Y + 1) None None
       =? B64.tax_free_cap fy Y None None + svc)%float = true
      /\ (B64.tax_free_cap fy (Y + 1) (Some base) (Some svc)
          =? B64.tax_free_cap fy Y (Some base) (Some svc) + svc)%float = true).
Proof.
  rewrite !tax_free_cap_resolved. split; [reflexivity |]. split.
  { rewrite inject_Z_plus. ring. }
  split; [intros i; reflexivity |].
  intros Hkey HY. apply year_counts_spec in HY.
  destruct cap_steps_b64_table as (H1 & H2 & H3).
  cbv zeta. apply andb_true_iff.
  change (cap_steps_b64 fy Y = true).
  destruct (B64_configured_keys fy Hkey) as [-> | [-> | ->]];
    [ apply (proj1 (forallb_forall _ _) H1)
    | apply (proj1 (forallb_forall _ _) H2)
    | apply (proj1 (forallb_forall _ _) H3) ]; exact HY.
Qed.

Lemma tax_free_cap_linear_witness :
  (B64.tax_free_cap "2025-26" (8 + 1) None None
   =? B64.tax_free_cap "2025-26" 8 None None + 6552)%float = true.
Proof.
  apply (tax_free_cap_linear "2025-26" 8 None None).
  - vm_compute. eexists. reflexivity.
  - lia.
Defined.

(** C9. For a fiscal-year label outside the configured keys and no
    overrides, [tax_free_cap] is 0 for every completed-years count (the
    function is total: nothing is raised), and with that cap the whole of
    a non-negative ETP pool is taxable. *)
Theorem tax_free_cap_unknown_key (fy : string) (Y : Z) :
  fy ∉ dom FY_CAPS ->
  (tax_free_cap fy Y None None == 0)%Q
  /\ (forall etp : Q,
        (0 <= etp)%Q ->
        (max_float 0 (etp - tax_free_cap fy Y None None) == etp)%Q).
Proof.
  intros H. destruct (resolved_unknown fy H) as [Hb Hs].
  rewrite tax_free_cap_resolved, Hb, Hs.
  assert (Hz : (0 + 0 * inject_Z Y == 0)%Q) by ring.
  split; [exact Hz |].
  intros etp Hetp. rewrite max_float_Qmax, Hz.
  rewrite Q.max_r; [ring | lra].
Qed.

Lemma tax_free_cap_unknown_key_witness :
  (tax_free_cap "2022-23" 8 None None == 0)%Q.
Proof.
  apply (tax_free_cap_unknown_key "2022-23" 8).
  apply not_elem_of_dom. vm_compute. reflexivity.
Defined.

(** ** The payout computation *)

Lemma div_52 (x : Q) : (x / 52 == x * (1 # 52))%Q.
Proof. reflexivity. Qed.

Lemma div_5 (x : Q) : (x / 5 == x * (1 # 5))%Q.
Proof. reflexivity. Qed.

Lemma rate_bounds (x r : Q) :
  (0 <= x -> 0 <= r -> r <= 1 -> 0 <= x * r /\ x * r <= x)%Q.
Proof. intros Hx Hr0 Hr1. split; nra. Qed.

Lemma max_float_0_bounds (x c : Q) :
  (0 <= x -> 0 <= c ->
   0 <= max_float 0 (x - c) /\ max_float 0 (x - c) <= x)%Q.
Proof.
  intros Hx Hc. unfold max_float.
  destruct (Qgtb (x - c) 0) eqn:E.
  - apply Qgtb_true in E. lra.
  - lra.
Qed.

Lemma max_float_0_nonneg (x : Q) : (0 <= max_float 0 x)%Q.
Proof.
  unfold max_float. destruct (Qgtb x 0) eqn:E.
  - apply Qgtb_true in E. lra.
  - lra.
Qed.

(** C3. The taxable ETP is [max(0, etpGross - cap)]; whenever
    [etpGross <= cap] the taxable ETP and the ETP tax are both 0, whatever
    the rates and the preservation-age flag. *)
Theorem etp_taxable_floor (i : Inputs) :
  (etp_taxable (compute i)
   == Qmax 0 (etp_gross (compute i) - cap (compute i)))%Q
  /\ ((etp_gross (compute i) <= cap (compute i))%Q ->
      (etp_taxable (compute i) == 0)%Q /\ (etp_tax (compute i) == 0)%Q).
Proof.
  unfold compute. cbn [etp_taxable etp_gross cap etp_tax].
  set (g := (_ + (if notice_paid_in_lieu i then _ else _))%Q).
  set (c := tax_free_cap _ _ _ _).
  split; [apply max_float_Qmax |].
  intros Hle.
  assert (Hz : (max_float 0 (g - c) == 0)%Q).
  { rewrite max_float_Qmax. apply Q.max_l. lra. }
  split; [exact Hz |]. rewrite Hz. ring.
Qed.

Lemma etp_taxable_floor_witness :
  (etp_taxable (compute (sample_inputs 52000 true)) == 0)%Q
  /\ (etp_tax (compute (sample_inputs 52000 true)) == 0)%Q.
Proof.
  apply (proj2 (etp_taxable_floor (sample_inputs 52000 true))).
  vm_compute. discriminate.
Defined.

(** C4. When there is notice pay, it is taxed in exactly one bucket chosen
    by the in-lieu flag: paid in lieu, it is part of the ETP pool and the
    notice withholding is 0; otherwise it is left out of the ETP pool and
    withheld at the leave withholding rate. *)
Theorem notice_single_bucket (i : Inputs) :
  (0 < notice_gross (compute i))%Q ->
  (notice_paid_in_lieu i = true ->
   (etp_gross (compute i)
    == redundancy_gross (compute i) + notice_gross (compute i))%Q
   /\ (notice_tax (compute i) == 0)%Q
   /\ ~ (etp_gross (compute i) == redundancy_gross (compute i))%Q)
  /\ (notice_paid_in_lieu i = false ->
      (etp_gross (compute i) == redundancy_gross (compute i))%Q
      /\ (notice_tax (compute i)
          == notice_gross (compute i) * leave_withholding i)%Q
      /\ ~ (etp_gross (compute i)
            == redundancy_gross (compute i) + notice_gross (compute i))%Q).
Proof.
  unfold compute. cbn [etp_gross notice_tax redundancy_gross notice_gross].
  intros Hpos. split; intros ->; cbn [negb].
  - split; [reflexivity |]. split; [reflexivity |]. lra.
  - split; [ring |]. split; [reflexivity |]. lra.
Qed.

Lemma notice_single_bucket_witness :
  (notice_tax (compute (sample_inputs 158000 true)) == 0)%Q
  /\ (notice_tax (compute (sample_inputs 158000 false))
      == notice_gross (compute (sample_inputs 158000 false)) * (32 # 100))%Q.
Proof.
  split.
  - apply (notice_single_bucket (sample_inputs 158000 true));
      reflexivity.
  - apply (notice_single_bucket (sample_inputs 158000 false));
      reflexivity.
Defined.

Lemma weekly_pay_nonneg (s : Q) : (0 <= s -> 0 <= weekly_pay s)%Q.
Proof. intros H. unfold weekly_pay. rewrite div_52. lra. Qed.

Lemma gross_components_nonneg (i : Inputs) :
  (0 <= annual_salary i -> 0 <= notice_weeks i -> 0 <= al_days i ->
   0 <= lsl_weeks i -> 0 <= al_loading_pct i ->
   0 <= redundancy_gross (compute i)
   /\ 0 <= notice_gross (compute i)
   /\ 0 <= leave_gross (compute i))%Q.
Proof.
  intros Hs Hn Ha Hl Hp. unfold compute.
  cbn [redundancy_gross notice_gross leave_gross].
  pose proof (weekly_pay_nonneg _ Hs) as Hw.
  destruct (redundancy_weeks_nonneg (start_date i) (notice_date i) (dob i))
    as [Hr _].
  set (w := weekly_pay (annual_salary i)) in *.
  set (r := rw_weeks _) in *.
  assert (Hd : (0 <= w / 5)%Q) by (rewrite div_5; lra).
  set (d := (w / 5)%Q) in *.
  assert (Hal : (0 <= al_days i * d)%Q) by nra.
  split; [nra |]. split; [nra |].
  destruct (include_al_loading i); nra.
Qed.

Lemma cap_nonneg (i : Inputs) :
  (0 <= cap_base i -> 0 <= cap_service i -> 0 <= cap (compute i))%Q.
Proof.
  intros Hb Hs. unfold compute. cbn [cap]. unfold tax_free_cap.
  destruct (redundancy_weeks_nonneg (start_date i) (notice_date i) (dob i))
    as [_ Hy].
  apply inject_Z_nonneg in Hy. nra.
Qed.

Lemma total_tax_nonneg (i : Inputs) :
  (0 <= annual_salary i -> 0 <= notice_weeks i -> 0 <= al_days i ->
   0 <= lsl_weeks i -> 0 <= al_loading_pct i ->
   0 <= etp_tax_u i -> 0 <= etp_tax_o i -> 0 <= leave_withholding i ->
   0 <= total_tax (compute i))%Q.
Proof.
  intros Hs Hn Ha Hl Hp Hu Ho Hw.
  destruct (gross_components_nonneg i Hs Hn Ha Hl Hp) as (_ & HN & HL).
  revert HN HL. unfold compute.
  cbn [total_tax notice_gross leave_gross].
  set (N := (notice_weeks i * _)%Q). set (L := (_ + _ + _)%Q).
  intros HN HL.
  pose proof (max_float_0_nonneg
    (rw_weeks (redundancy_weeks_paso_standard
                 (start_date i) (notice_date i) (dob i))
     * weekly_pay (annual_salary i)
     + (if notice_paid_in_lieu i then N else 0)
     - tax_free_cap (fy i)
         (rw_yrs (redundancy_weeks_paso_standard
                    (start_date i) (notice_date i) (dob i)))
         (Some (cap_base i)) (Some (cap_service i)))) as HT.
  set (T := max_float 0 _) in *.
  assert (HR : (0 <= (if under_pres i then etp_tax_u i else etp_tax_o i))%Q)
    by (destruct (under_pres i); assumption).
  set (rate := if under_pres i then _ else _) in *.
  destruct (notice_paid_in_lieu i); cbn [negb]; nra.
Qed.

(** C5. The total gross is redundancy pay plus notice pay plus leave pay
    (notice pay is in it whatever the in-lieu flag), the total tax is the
    sum of the three taxes, the net is gross minus tax, and the total tax
    is never negative for inputs in the ranges the input widgets allow. *)
Theorem totals_identity (i : Inputs) :
  (total_gross (compute i)
   == redundancy_gross (compute i) + notice_gross (compute i)
      + leave_gross (compute i))%Q
  /\ (notice_gross (compute i) == notice_weeks i * weekly (compute i))%Q
  /\ (total_tax (compute i)
      == etp_tax (compute i) + leave_tax (compute i)
         + notice_tax (compute i))%Q
  /\ (total_net (compute i)
      == total_gross (compute i) - total_tax (compute i))%Q
  /\ (number_inputs_in_range i -> (0 <= total_tax (compute i))%Q).
Proof.
  split; [reflexivity |]. split; [reflexivity |].
  split; [reflexivity |]. split; [reflexivity |].
  unfold number_inputs_in_range. intros H.
  apply total_tax_nonneg; tauto.
Qed.

Lemma totals_identity_witness : (0 <= total_tax (compute example_inputs))%Q.
Proof.
  apply (totals_identity example_inputs).
  vm_compute. intuition discriminate.
Defined.

Lemma net_nonneg_explicit (i : Inputs) :
  (0 <= annual_salary i -> 0 <= notice_weeks i -> 0 <= al_days i ->
   0 <= lsl_weeks i -> 0 <= al_loading_pct i ->
   0 <= cap_base i -> 0 <= cap_service i ->
   0 <= etp_tax_u i <= 1 -> 0 <= etp_tax_o i <= 1 ->
   0 <= leave_withholding i <= 1 ->
   0 <= total_net (compute i))%Q.
Proof.
  intros Hs Hn Ha Hl Hp Hcb Hcs Hu Ho Hw.
  destruct (gross_components_nonneg i Hs Hn Ha Hl Hp) as (HR & HN & HL).
  pose proof (cap_nonneg i Hcb Hcs) as HC.
  revert HR HN HL HC. unfold compute.
  cbn [total_net redundancy_gross notice_gross leave_gross cap].
  set (R := (rw_weeks _ * _)%Q). set (N := (notice_weeks i * _)%Q).
  set (L := (_ + _ + _)%Q). set (C := tax_free_cap _ _ _ _).
  intros HR HN HL HC.
  assert (Hrate :
    (0 <= (if under_pres i then etp_tax_u i else etp_tax_o i) <= 1)%Q)
    by (destruct (under_pres i); assumption).
  set (rate := if under_pres i then _ else _) in *.
  destruct (rate_bounds L (leave_withholding i)) as [HL0 HL1]; try tauto.
  destruct (rate_bounds N (leave_withholding i)) as [HN0 HN1]; try tauto.
  destruct (notice_paid_in_lieu i); cbn [negb].
  - destruct (max_float_0_bounds (R + N) C) as [HT0 HT1]; [lra | lra |].
    set (T := max_float 0 _) in *.
    destruct (rate_bounds T rate) as [HE0 HE1]; try tauto. lra.
  - destruct (max_float_0_bounds (R + 0) C) as [HT0 HT1]; [lra | lra |].
    set (T := max_float 0 _) in *.
    destruct (rate_bounds T rate) as [HE0 HE1]; try tauto. lra.
Qed.

(** C10 as stated fails in the program's arithmetic: at the sidebar
    defaults with the notice date 2027-10-11 (6 years of service), the
    notice not paid in lieu, both cap constants 0.0 and the three rates
    1.0, the total tax is 94192.307692307702, the total gross
    94192.307692307688 and the net -1.4551915228366852e-11. *)
Lemma total_net_negative_counterexample :
  let i :=
    {| B64.annual_salary := 158000;
       B64.dob := mkdate 1992 8 12;
       B64.start_date := mkdate 2021 10 11;
       B64.notice_date := mkdate 2027 10 11;
       B64.notice_weeks := 8;
       B64.notice_paid_in_lieu := false;
       B64.al_days := 5;
       B64.lsl_weeks := 4;
       B64.include_al_loading := false;
       B64.al_loading_pct := 0.175;
       B64.fy := "2025-26";
       B64.cap_base := 0;
       B64.cap_service := 0;
       B64.under_pres := true;
       B64.etp_tax_u := 1;
       B64.etp_tax_o := 1;
       B64.leave_withholding := 1 |}%float in
  (B64.total_gross (B64.compute i) <? B64.total_tax (B64.compute i))%float
  = true
  /\ (B64.total_net (B64.compute i) <? 0)%float = true.
Proof. vm_compute. split; reflexivity. Qed.

(** C10 (amended). In exact arithmetic, for every input where the salary,
    the notice weeks, the unused annual leave days, the unused long
    service leave weeks, the loading percentage and the two cap constants
    are non-negative and the three rates lie in [0,1], the total net is
    non-negative: the total tax never exceeds the total gross. *)
Theorem total_net_nonneg (i : Inputs) :
  (0 <= annual_salary i -> 0 <= notice_weeks i -> 0 <= al_days i ->
   0 <= lsl_weeks i -> 0 <= al_loading_pct i ->
   0 <= cap_base i -> 0 <= cap_service i ->
   0 <= etp_tax_u i <= 1 -> 0 <= etp_tax_o i <= 1 ->
   0 <= leave_withholding i <= 1 ->
   0 <= total_net (compute i))%Q.
Proof. apply net_nonneg_explicit. Qed.

Lemma total_net_nonneg_witness : (0 <= total_net (compute example_inputs))%Q.
Proof.
  apply (total_net_nonneg example_inputs);
    vm_compute; first [discriminate | split; discriminate].
Defined.

(** The cap bounds are needed: a negative cap base taxes more than the
    ETP pool and can drive the net below zero. *)
Remark negative_cap_negative_net :
  let i := {| annual_salary := 52000;
              dob := mkdate 1992 8 12;
              start_date := mkdate 2021 10 11;
              notice_date := mkdate 2029 10 11;
              notice_weeks := 0;
              notice_paid_in_lieu := true;
              al_days := 0;
              lsl_weeks := 0;
              include_al_loading := false;
              al_loading_pct := 0;
              fy := "2025-26";
              cap_base := - 1000000;
              cap_service := 0;
              under_pres := true;
              etp_tax_u := 1;
              etp_tax_o := 1;
              leave_withholding := 0 |} in
  (total_net (compute i) < 0)%Q.
Proof. vm_compute. reflexivity. Qed.

(** ** Worked examples from the specification *)

Example floor_case :
  (rw_weeks (redundancy_weeks_paso_standard
               (mkdate 2021 1 1) (mkdate 2024 1 1) (mkdate 1994 1 1)) == 14)%Q.
Proof. reflexivity. Qed.

Example ceiling_case :
  (rw_weeks (redundancy_weeks_paso_standard
               (mkdate 2004 1 1) (mkdate 2024 1 1) (mkdate 1994 1 1)) == 52)%Q.
Proof. reflexivity. Qed.

Example age_45_boundary :
  let start := mkdate 2015 1 1 in
  let notice := mkdate 2024 1 1 in
  (rw_weeks (redundancy_weeks_paso_standard start notice (mkdate 1979 1 1))
   == 29)%Q
  /\ (rw_weeks (redundancy_weeks_paso_standard start notice (mkdate 1979 1 2))
      == 27)%Q.
Proof. split; reflexivity. Qed.

Example partial_month_not_counted :
  full_months_between (mkdate 2024 1 31) (mkdate 2024 2 29) = 0
  /\ full_months_between (mkdate 2024 2 1) (mkdate 2024 3 1) = 1.
Proof. split; reflexivity. Qed.

Example end_to_end :
  let r := compute example_inputs in
  service_years r = 8 /\ service_months r = 0 /\ age r = 37
  /\ (redundancy_weeks r == 24)%Q
  /\ (cap r == 65516)%Q
  /\ (etp_taxable r == etp_gross r - 65516)%Q
  /\ (etp_tax r == (32 # 100) * etp_taxable r)%Q
  /\ (10148 < etp_tax r /\ etp_tax r < 10149)%Q.
Proof. vm_compute. intuition congruence. Qed.

(** * Further properties of the engine *)

(** ** Service split and age *)

(** X1. Splitting a month count into years and months loses nothing:
    [years * 12 + months] is the count again and the months part is
    between 0 and 11 (also for a negative count, where [//] and [%]
    round down); a non-negative count gives non-negative years. *)
Theorem years_and_months_round_trip (total : Z) :
  let '(years, months) := years_and_months_from_total total in
  years * 12 + months = total
  /\ 0 <= months <= 11
  /\ (0 <= total -> 0 <= years).
Proof.
  unfold years_and_months_from_total. cbv zeta.
  pose proof (Z.div_mod total 12 ltac:(lia)) as Hdm.
  pose proof (Z.mod_pos_bound total 12 ltac:(lia)) as Hm.
  split; [lia |]. split; [lia |].
  intros H. apply Z.div_pos; lia.
Qed.

Lemma years_and_months_round_trip_witness :
  0 <= fst (years_and_months_from_total 97).
Proof.
  apply (years_and_months_round_trip 97). lia.
Defined.

Lemma age_on_ge (dob0 d : date) (n : Z) :
  n <= age_on dob0 d <-> date_le (anniversary dob0 n) d = true.
Proof.
  rewrite date_le_spec. unfold age_on, anniversary. cbn [year month day].
  destruct (tuple_lt (month d, day d) (month dob0, day dob0)) eqn:E.
  - apply tuple_lt_spec in E. cbn [fst snd] in E. lia.
  - apply not_true_iff_false in E. rewrite tuple_lt_spec in E.
    cbn [fst snd] in E. lia.
Qed.

(** X2. The age is at least [n] exactly from the [n]-th anniversary of
    the date of birth on: the birthday itself already counts, the day
    before does not. *)
Theorem age_on_anniversary (dob0 d : date) (n : Z) :
  n <= age_on dob0 d <-> date_le (anniversary dob0 n) d = true.
Proof. apply age_on_ge. Qed.

Lemma anniversary_0_le (dob0 d : date) :
  date_le (anniversary dob0 0) d = date_le dob0 d.
Proof.
  unfold date_le, date_lt, anniversary. cbn [year month day].
  rewrite Z.add_0_r. reflexivity.
Qed.

(** X3. The age is negative exactly when the date lies before the date of
    birth: out-of-order dates are not rejected, they give a negative
    age. *)
Theorem age_on_negative_iff (dob0 d : date) :
  age_on dob0 d < 0 <-> date_lt d dob0 = true.
Proof.
  pose proof (age_on_ge dob0 d 0) as H.
  rewrite anniversary_0_le in H. unfold date_le in H.
  rewrite negb_true_iff in H.
  split.
  - intros Hneg. destruct (date_lt d dob0); [reflexivity |].
    exfalso. assert (0 <= age_on dob0 d) by (apply H; reflexivity). lia.
  - intros E. rewrite E in H.
    destruct (Z.lt_ge_cases (age_on dob0 d) 0) as [Hlt | Hge];
      [exact Hlt |].
    apply H in Hge. discriminate.
Qed.

Lemma age_monotone_aux (dob0 d1 d2 : date) :
  date_le d1 d2 = true -> age_on dob0 d1 <= age_on dob0 d2.
Proof.
  intros Hle.
  apply (age_on_ge dob0 d2 (age_on dob0 d1)).
  assert (H1 : date_le (anniversary dob0 (age_on dob0 d1)) d1 = true)
    by (apply age_on_ge; lia).
  revert H1 Hle. rewrite !date_le_spec. lia.
Qed.

(** X4. The age never decreases as the date advances. *)
Theorem age_on_mono (dob0 d1 d2 : date) :
  date_le d1 d2 = true -> age_on dob0 d1 <= age_on dob0 d2.
Proof. apply age_monotone_aux. Qed.

Lemma age_on_mono_witness :
  age_on (mkdate 1979 1 2) (mkdate 2023 12 31)
  <= age_on (mkdate 1979 1 2) (mkdate 2024 1 2).
Proof.
  apply (age_on_mono (mkdate 1979 1 2) (mkdate 2023 12 31) (mkdate 2024 1 2)).
  reflexivity.
Defined.

(** ** Completed months *)

Lemma date_lt_month_index (a b : date) :
  1 <= month a <= 12 -> 1 <= month b <= 12 ->
  date_lt a b = true -> month_index a <= month_index b.
Proof.
  intros Ha Hb H. apply date_lt_spec in H. unfold month_index. lia.
Qed.

Lemma full_months_between_ge (start end_ : date) (n : Z) :
  1 <= month start <= 12 -> 1 <= month end_ <= 12 -> 1 <= n ->
  (n <= full_months_between start end_ <->
   month_index start + n < month_index end_
   \/ (month_index start + n = month_index end_ /\ day start <= day end_)).
Proof.
  intros Hs He Hn. rewrite full_months_between_unfold.
  destruct (date_lt end_ start) eqn:E.
  - pose proof (date_lt_month_index end_ start He Hs E). lia.
  - unfold month_diff, month_index.
    destruct (Z.ltb_spec (day end_) (day start)); lia.
Qed.

(** X5. The completed-month count is the largest [n] such that the start
    date moved on by [n] calendar months (same day of the month) is not
    after the end date: for [n >= 1], at least [n] months are completed
    exactly when the end lies in a later month than that, or in that month
    on or after the start's day of the month. *)
Theorem full_months_between_characterised (start end_ : date) (n : Z) :
  valid_date start = true -> valid_date end_ = true -> 1 <= n ->
  (n <= full_months_between start end_ <->
   month_index start + n < month_index end_
   \/ (month_index start + n = month_index end_ /\ day start <= day end_)).
Proof.
  intros Vs Ve. apply full_months_between_ge; apply valid_date_month; assumption.
Qed.

Lemma full_months_between_characterised_witness :
  7 <= full_months_between (mkdate 2024 1 31) (mkdate 2024 9 30).
Proof.
  apply (full_months_between_characterised
           (mkdate 2024 1 31) (mkdate 2024 9 30) 7);
    [reflexivity | reflexivity | lia |].
  left. reflexivity.
Defined.

Lemma month_diff_anti_mono (s1 s2 end_ : date) :
  1 <= month s1 <= 12 -> 1 <= month s2 <= 12 ->
  date_le s1 s2 = true ->
  month_diff s2 end_ <= month_diff s1 end_.
Proof.
  intros H1 H2 Hle. apply date_le_spec in Hle. unfold month_diff.
  destruct (Z.ltb_spec (day end_) (day s1));
    destruct (Z.ltb_spec (day end_) (day s2)); lia.
Qed.

Lemma months_anti_mono_in_start (s1 s2 end_ : date) :
  1 <= month s1 <= 12 -> 1 <= month s2 <= 12 ->
  date_le s1 s2 = true ->
  full_months_between s2 end_ <= full_months_between s1 end_.
Proof.
  intros H1 H2 Hle. rewrite !full_months_between_unfold.
  pose proof (month_diff_anti_mono s1 s2 end_ H1 H2 Hle) as Hd.
  destruct (date_lt end_ s2) eqn:E2.
  - destruct (date_lt end_ s1); lia.
  - assert (date_lt end_ s1 = false) as ->.
    { revert E2 Hle. rewrite !date_lt_false, date_le_spec. lia. }
    lia.
Qed.

(** X6. For a fixed end date, a later start date never gives more
    completed months. *)
Theorem full_months_between_anti_mono (s1 s2 end_ : date) :
  valid_date s1 = true -> valid_date s2 = true ->
  date_le s1 s2 = true ->
  full_months_between s2 end_ <= full_months_between s1 end_.
Proof.
  intros V1 V2.
  apply months_anti_mono_in_start; apply valid_date_month;
    assumption.
Qed.

Lemma full_months_between_anti_mono_witness :
  full_months_between (mkdate 2021 10 12) (mkdate 2029 10 11)
  <= full_months_between (mkdate 2021 10 11) (mkdate 2029 10 11).
Proof.
  apply (full_months_between_anti_mono
           (mkdate 2021 10 11) (mkdate 2021 10 12) (mkdate 2029 10 11));
    reflexivity.
Defined.

Lemma months_mono_in_end (start e1 e2 : date) :
  1 <= month e1 <= 12 -> 1 <= month e2 <= 12 ->
  date_le e1 e2 = true ->
  full_months_between start e1 <= full_months_between start e2.
Proof.
  intros V1 V2 Hle. rewrite !full_months_between_unfold.
  destruct (date_lt e1 start) eqn:E1.
  - destruct (date_lt e2 start); lia.
  - rewrite (date_lt_le_trans_false start e1 e2 E1 Hle).
    pose proof (month_diff_mono start e1 e2 V1 V2 Hle). lia.
Qed.

Lemma age_on_month_diff (dob0 d : date) :
  1 <= month dob0 <= 12 -> 1 <= month d <= 12 ->
  month_diff dob0 d / 12 = age_on dob0 d.
Proof.
  intros Hb Hd. unfold month_diff, age_on.
  destruct (tuple_lt (month d, day d) (month dob0, day dob0)) eqn:E.
  - apply tuple_lt_spec in E. cbn [fst snd] in E.
    symmetry. apply (Z.div_unique _ 12 _
      ((year d - year dob0) * 12 + (month d - month dob0)
       - (if day d <? day dob0 then 1 else 0)
       - 12 * (year d - year dob0 - 1))).
    + destruct (Z.ltb_spec (day d) (day dob0)); lia.
    + lia.
  - apply not_true_iff_false in E. rewrite tuple_lt_spec in E.
    cbn [fst snd] in E.
    symmetry. apply (Z.div_unique _ 12 _
      ((year d - year dob0) * 12 + (month d - month dob0)
       - (if day d <? day dob0 then 1 else 0)
       - 12 * (year d - year dob0))).
    + destruct (Z.ltb_spec (day d) (day dob0)); lia.
    + lia.
Qed.

(** X7. The two date helpers agree: from the date of birth on, the age is
    the number of whole years in the completed months since birth. *)
Theorem age_on_is_completed_years (dob0 d : date) :
  valid_date dob0 = true -> valid_date d = true ->
  date_le dob0 d = true ->
  fst (years_and_months_from_total (full_months_between dob0 d))
  = age_on dob0 d.
Proof.
  intros Vb Vd Hle.
  apply valid_date_month in Vb. apply valid_date_month in Vd.
  unfold years_and_months_from_total. cbn [fst].
  rewrite full_months_between_unfold.
  unfold date_le in Hle. rewrite negb_true_iff in Hle. rewrite Hle.
  pose proof (month_diff_nonneg dob0 d Vb Vd Hle) as Hnn.
  rewrite Z.max_r by exact Hnn.
  apply age_on_month_diff; assumption.
Qed.

Lemma age_on_is_completed_years_witness :
  fst (years_and_months_from_total
         (full_months_between (mkdate 1992 8 12) (mkdate 2029 10 11)))
  = age_on (mkdate 1992 8 12) (mkdate 2029 10 11).
Proof.
  apply (age_on_is_completed_years (mkdate 1992 8 12) (mkdate 2029 10 11));
    reflexivity.
Defined.

(** ** Redundancy weeks as a function of the completed months *)

Lemma rw_weeks_final (start notice dob0 : date) :
  rw_weeks (redundancy_weeks_paso_standard start notice dob0)
  = final_weeks
      (raw_weeks (full_months_between start notice / 12)
         (full_months_between start notice mod 12) (age_on dob0 notice)).
Proof. rewrite redundancy_weeks_unfold. reflexivity. Qed.

Lemma raw_weeks_quarter (t a : Z) :
  (raw_weeks (t / 12) (t mod 12) a
   == inject_Z t * (1 # 4) + (if 45 <=? a then 2 else 0))%Q.
Proof.
  unfold raw_weeks.
  rewrite (Z.div_mod t 12) at 3 by lia.
  rewrite inject_Z_plus, inject_Z_mult. ring.
Qed.

Lemma final_weeks_cases (x : Q) :
  ((x <= 0 -> final_weeks x == x)
   /\ (0 < x -> x <= 14 -> final_weeks x == 14)
   /\ (14 <= x -> x <= 52 -> final_weeks x == x)
   /\ (52 <= x -> final_weeks x == 52))%Q.
Proof.
  unfold final_weeks, max_float, min_float.
  destruct (Qgtb x 0) eqn:E0; destruct (Qgtb 52 x) eqn:E52;
    try destruct (Qgtb x 14) eqn:E14; try destruct (Qgtb 52 14) eqn:E;
    rewrite ?Qgtb_true, ?Qgtb_false in *;
    repeat split; intros; lra.
Qed.

Lemma final_weeks_mono (x y : Q) :
  (0 <= x -> x <= y -> final_weeks x <= final_weeks y)%Q.
Proof.
  intros Hx Hxy.
  destruct (final_weeks_cases x) as (X0 & X1 & X2 & X3).
  destruct (final_weeks_cases y) as (Y0 & Y1 & Y2 & Y3).
  destruct (Qlt_le_dec 0 x) as [Hp | Hz].
  - destruct (Qlt_le_dec x 14) as [Hx14 | Hx14];
      [rewrite X1 by lra | destruct (Qlt_le_dec x 52) as [Hx52 | Hx52];
         [rewrite X2 by lra | rewrite X3 by lra]];
      (destruct (Qlt_le_dec y 14) as [Hy14 | Hy14];
       [rewrite Y1 by lra | destruct (Qlt_le_dec y 52) as [Hy52 | Hy52];
          [rewrite Y2 by lra | rewrite Y3 by lra]]); lra.
  - rewrite X0 by lra.
    destruct (Qlt_le_dec 0 y) as [Hyp | Hyz]; [| rewrite Y0 by lra; lra].
    destruct (Qlt_le_dec y 14) as [Hy14 | Hy14];
      [rewrite Y1 by lra | destruct (Qlt_le_dec y 52) as [Hy52 | Hy52];
         [rewrite Y2 by lra | rewrite Y3 by lra]]; lra.
Qed.

Lemma inject_Z_le_iff (a b : Z) : a <= b -> (inject_Z a <= inject_Z b)%Q.
Proof. intros H. rewrite <- Zle_Qle. exact H. Qed.

(** X8. For an employee under 45 on the notice date the weeks depend on
    the service only through the completed months [t] (3 weeks a year is
    a quarter week a month): 0 for no completed month, the 14-week floor
    up to 56 months, [t / 4] from 56 to 208 months, and the 52-week
    ceiling from 208 months on. *)
Theorem redundancy_weeks_by_months (start notice dob0 : date) :
  let t := full_months_between start notice in
  let w := rw_weeks (redundancy_weeks_paso_standard start notice dob0) in
  age_on dob0 notice < 45 ->
  (t = 0 -> (w == 0)%Q)
  /\ (1 <= t <= 56 -> (w == 14)%Q)
  /\ (56 <= t <= 208 -> (w == inject_Z t * (1 # 4))%Q)
  /\ (208 <= t -> (w == 52)%Q).
Proof.
  cbv zeta. intros Ha. rewrite rw_weeks_final.
  set (t := full_months_between start notice).
  pose proof (raw_weeks_quarter t (age_on dob0 notice)) as Hq.
  apply Z.leb_gt in Ha. rewrite Ha in Hq.
  set (x := raw_weeks _ _ _) in *.
  destruct (final_weeks_cases x) as (X0 & X1 & X2 & X3).
  split; [| split; [| split]].
  - intros Ht. rewrite Ht in Hq. rewrite X0; [rewrite Hq; reflexivity |].
    rewrite Hq. discriminate.
  - intros [H1 H2]. apply inject_Z_le_iff in H1, H2.
    change (inject_Z 1) with 1%Q in H1. change (inject_Z 56) with 56%Q in H2.
    apply X1; lra.
  - intros [H1 H2]. apply inject_Z_le_iff in H1, H2.
    change (inject_Z 56) with 56%Q in H1.
    change (inject_Z 208) with 208%Q in H2.
    rewrite X2; lra.
  - intros H1. apply inject_Z_le_iff in H1.
    change (inject_Z 208) with 208%Q in H1.
    apply X3; lra.
Qed.

Lemma redundancy_weeks_by_months_witness :
  (rw_weeks (redundancy_weeks_paso_standard
               (mkdate 2021 10 11) (mkdate 2029 10 11) (mkdate 1992 8 12))
   == inject_Z 96 * (1 # 4))%Q.
Proof.
  apply (redundancy_weeks_by_months
           (mkdate 2021 10 11) (mkdate 2029 10 11) (mkdate 1992 8 12));
    [reflexivity |].
  vm_compute. split; discriminate.
Defined.

(** X9. From age 45 on the notice date the 2-week bonus shifts the
    thresholds: the 14-week floor up to 48 completed months (also with no
    completed month at all), [t / 4 + 2] from 48 to 200 months, and the
    52-week ceiling from 200 months on. *)
Theorem redundancy_weeks_45_plus_by_months (start notice dob0 : date) :
  let t := full_months_between start notice in
  let w := rw_weeks (redundancy_weeks_paso_standard start notice dob0) in
  45 <= age_on dob0 notice ->
  (t <= 48 -> (w == 14)%Q)
  /\ (48 <= t <= 200 -> (w == inject_Z t * (1 # 4) + 2)%Q)
  /\ (200 <= t -> (w == 52)%Q).
Proof.
  cbv zeta. intros Ha. rewrite rw_weeks_final.
  pose proof (full_months_between_nonneg start notice) as Hnn.
  set (t := full_months_between start notice) in *.
  pose proof (raw_weeks_quarter t (age_on dob0 notice)) as Hq.
  apply Z.leb_le in Ha. rewrite Ha in Hq.
  set (x := raw_weeks _ _ _) in *.
  destruct (final_weeks_cases x) as (X0 & X1 & X2 & X3).
  apply inject_Z_le_iff in Hnn. change (inject_Z 0) with 0%Q in Hnn.
  split; [| split].
  - intros H2. apply inject_Z_le_iff in H2.
    change (inject_Z 48) with 48%Q in H2.
    apply X1; lra.
  - intros [H1 H2]. apply inject_Z_le_iff in H1, H2.
    change (inject_Z 48) with 48%Q in H1.
    change (inject_Z 200) with 200%Q in H2.
    rewrite X2; lra.
  - intros H1. apply inject_Z_le_iff in H1.
    change (inject_Z 200) with 200%Q in H1.
    apply X3; lra.
Qed.

Lemma redundancy_weeks_45_plus_by_months_witness :
  (rw_weeks (redundancy_weeks_paso_standard
               (mkdate 2015 1 1) (mkdate 2024 1 1) (mkdate 1979 1 1))
   == inject_Z 108 * (1 # 4) + 2)%Q.
Proof.
  apply (redundancy_weeks_45_plus_by_months
           (mkdate 2015 1 1) (mkdate 2024 1 1) (mkdate 1979 1 1));
    [vm_compute; discriminate |].
  vm_compute. split; discriminate.
Defined.

(** ** How the redundancy weeks move with the dates *)

Ltac final_weeks_cases_tac :=
  unfold final_weeks, min_float;
  repeat match goal with
         | |- context [Qgtb 52 ?b] => destruct (Qgtb 52 b) eqn:?
         end;
  unfold max_float;
  repeat match goal with
         | |- context [Qgtb ?a ?b] => destruct (Qgtb a b) eqn:?
         end;
  rewrite ?Qgtb_true, ?Qgtb_false in *; lra.

Lemma final_weeks_bonus (x : Q) :
  (0 < x -> final_weeks x <= final_weeks (x + 2)
            /\ final_weeks (x + 2) <= final_weeks x + 2)%Q.
Proof. intros Hx. split; final_weeks_cases_tac. Qed.

Lemma final_weeks_proper (x y : Q) :
  (x == y -> final_weeks x == final_weeks y)%Q.
Proof. intros H. final_weeks_cases_tac. Qed.

Lemma bonus_mono (a1 a2 : Z) :
  a1 <= a2 ->
  ((if 45 <=? a1 then 2 else 0) <= (if 45 <=? a2 then 2 else 0))%Q.
Proof.
  intros H. destruct (Z.leb_spec 45 a1); destruct (Z.leb_spec 45 a2);
    try lia; discriminate.
Qed.

Lemma rw_weeks_mono_gen (s1 n1 s2 n2 dob0 : date) :
  full_months_between s1 n1 <= full_months_between s2 n2 ->
  age_on dob0 n1 <= age_on dob0 n2 ->
  (rw_weeks (redundancy_weeks_paso_standard s1 n1 dob0)
   <= rw_weeks (redundancy_weeks_paso_standard s2 n2 dob0))%Q.
Proof.
  intros Ht Ha. rewrite !rw_weeks_final.
  pose proof (full_months_between_nonneg s1 n1) as Hnn.
  pose proof (raw_weeks_quarter (full_months_between s1 n1) (age_on dob0 n1))
    as H1.
  pose proof (raw_weeks_quarter (full_months_between s2 n2) (age_on dob0 n2))
    as H2.
  pose proof (bonus_mono _ _ Ha) as Hb.
  apply inject_Z_le_iff in Ht.
  destruct (service_split_nonneg _ Hnn) as [HY HM].
  apply final_weeks_mono.
  - apply raw_weeks_nonneg; lia.
  - rewrite H1, H2. lra.
Qed.

(** X10. For a fixed start date and date of birth, a later notice date
    never lowers the redundancy weeks. *)
Theorem redundancy_weeks_mono_notice (start n1 n2 dob0 : date) :
  valid_date n1 = true -> valid_date n2 = true ->
  date_le n1 n2 = true ->
  (rw_weeks (redundancy_weeks_paso_standard start n1 dob0)
   <= rw_weeks (redundancy_weeks_paso_standard start n2 dob0))%Q.
Proof.
  intros V1 V2 Hle.
  apply valid_date_month in V1. apply valid_date_month in V2.
  apply rw_weeks_mono_gen.
  - apply months_mono_in_end; assumption.
  - apply age_monotone_aux. exact Hle.
Qed.

Lemma redundancy_weeks_mono_notice_witness :
  (rw_weeks (redundancy_weeks_paso_standard
               (mkdate 2015 1 1) (mkdate 2023 12 31) (mkdate 1979 1 1))
   <= rw_weeks (redundancy_weeks_paso_standard
                  (mkdate 2015 1 1) (mkdate 2024 1 1) (mkdate 1979 1 1)))%Q.
Proof.
  apply (redundancy_weeks_mono_notice
           (mkdate 2015 1 1) (mkdate 2023 12 31) (mkdate 2024 1 1)
           (mkdate 1979 1 1)); reflexivity.
Defined.

(** X11. For a fixed notice date and date of birth, an earlier start date
    never lowers the redundancy weeks. *)
Theorem redundancy_weeks_anti_mono_start (s1 s2 notice dob0 : date) :
  valid_date s1 = true -> valid_date s2 = true ->
  date_le s1 s2 = true ->
  (rw_weeks (redundancy_weeks_paso_standard s2 notice dob0)
   <= rw_weeks (redundancy_weeks_paso_standard s1 notice dob0))%Q.
Proof.
  intros V1 V2 Hle.
  apply valid_date_month in V1. apply valid_date_month in V2.
  apply rw_weeks_mono_gen.
  - apply months_anti_mono_in_start; assumption.
  - lia.
Qed.

Lemma redundancy_weeks_anti_mono_start_witness :
  (rw_weeks (redundancy_weeks_paso_standard
               (mkdate 2010 6 15) (mkdate 2024 1 1) (mkdate 1990 1 1))
   <= rw_weeks (redundancy_weeks_paso_standard
                  (mkdate 2008 6 15) (mkdate 2024 1 1) (mkdate 1990 1 1)))%Q.
Proof.
  apply (redundancy_weeks_anti_mono_start
           (mkdate 2008 6 15) (mkdate 2010 6 15) (mkdate 2024 1 1)
           (mkdate 1990 1 1)); reflexivity.
Defined.

(** X12. With at least one completed month of service, being 45 or older
    on the notice date is worth between 0 and 2 extra weeks compared with
    an employee under 45 with the same service (less than 2 where the
    floor or the ceiling absorbs the bonus). *)
Theorem age_bonus_bounded (start notice dob1 dob2 : date) :
  1 <= full_months_between start notice ->
  age_on dob1 notice < 45 -> 45 <= age_on dob2 notice ->
  (rw_weeks (redundancy_weeks_paso_standard start notice dob1)
   <= rw_weeks (redundancy_weeks_paso_standard start notice dob2)
   /\ rw_weeks (redundancy_weeks_paso_standard start notice dob2)
      <= rw_weeks (redundancy_weeks_paso_standard start notice dob1) + 2)%Q.
Proof.
  intros Ht H1 H2. rewrite !rw_weeks_final.
  set (t := full_months_between start notice) in *.
  pose proof (raw_weeks_quarter t (age_on dob1 notice)) as Q1.
  pose proof (raw_weeks_quarter t (age_on dob2 notice)) as Q2.
  apply Z.leb_gt in H1. apply Z.leb_le in H2. rewrite H1 in Q1.
  rewrite H2 in Q2.
  apply inject_Z_le_iff in Ht. change (inject_Z 1) with 1%Q in Ht.
  set (x1 := raw_weeks _ _ (age_on dob1 notice)) in *.
  set (x2 := raw_weeks _ _ (age_on dob2 notice)) in *.
  assert (Hx : (x2 == x1 + 2)%Q) by (rewrite Q1, Q2; ring).
  rewrite (final_weeks_proper x2 (x1 + 2) Hx).
  apply final_weeks_bonus. lra.
Qed.

Lemma age_bonus_bounded_witness :
  (rw_weeks (redundancy_weeks_paso_standard
               (mkdate 2015 1 1) (mkdate 2024 1 1) (mkdate 1979 1 2))
   <= rw_weeks (redundancy_weeks_paso_standard
                  (mkdate 2015 1 1) (mkdate 2024 1 1) (mkdate 1979 1 1)))%Q.
Proof.
  apply (age_bonus_bounded
           (mkdate 2015 1 1) (mkdate 2024 1 1)
           (mkdate 1979 1 2) (mkdate 1979 1 1));
    vm_compute; first [reflexivity | discriminate].
Defined.

(** ** Tax-free cap and the payout computation *)

(** X13. For every configured income year the two cap widgets have
    defaults (no [KeyError]), and with both widgets left at the defaults
    of the selected year the cap the computation uses is the table cap of
    that year, [tax_free_cap(fy, years, None, None)]. *)
Theorem cap_defaults_give_table_cap (i : Inputs) :
  (fy i ∈ dom FY_CAPS -> is_Some (cap_widget_defaults (fy i)))
  /\ (cap_widget_defaults (fy i) = Some (cap_base i, cap_service i) ->
      cap (compute i)
      = tax_free_cap (fy i) (service_years (compute i)) None None).
Proof.
  split.
  - rewrite FY_CAPS_dom, !elem_of_union, !elem_of_singleton.
    intros [[-> | ->] | ->]; vm_compute; eexists; reflexivity.
  - unfold cap_widget_defaults, compute, tax_free_cap. cbn [cap service_years].
    destruct (FY_CAPS !! fy i) as [d |]; [| discriminate].
    cbn [from_option id].
    destruct (d !! "base") as [b |]; [| discriminate].
    destruct (d !! "service") as [sv |]; [| discriminate].
    intros [= <- <-]. reflexivity.
Qed.

Lemma cap_defaults_give_table_cap_witness :
  cap (compute example_inputs)
  = tax_free_cap "2025-26" (service_years (compute example_inputs)) None None.
Proof.
  apply (cap_defaults_give_table_cap example_inputs).
  vm_compute. reflexivity.
Defined.

Lemma FY_CAPS_keys (f : string) :
  f ∈ dom FY_CAPS -> f = "2025-26" \/ f = "2024-25" \/ f = "2023-24".
Proof.
  rewrite FY_CAPS_dom, !elem_of_union, !elem_of_singleton. tauto.
Qed.

Lemma resolved_table_nonneg (f : string) :
  (0 <= resolved_base f None /\ 0 <= resolved_service f None)%Q.
Proof.
  destruct (decide (f ∈ dom FY_CAPS)) as [Hin | Hout].
  - destruct (FY_CAPS_keys f Hin) as [-> | [-> | ->]];
      split; vm_compute; discriminate.
  - destruct (resolved_unknown f Hout) as [-> ->]. split; discriminate.
Qed.

(** X14. Without overrides the cap is never negative and never decreases
    with the completed years, whatever the income-year label (configured
    or not). *)
Theorem tax_free_cap_table_nonneg_mono (f : string) (Y : Z) :
  0 <= Y ->
  (0 <= tax_free_cap f Y None None
   /\ tax_free_cap f Y None None <= tax_free_cap f (Y + 1) None None)%Q.
Proof.
  intros HY. rewrite !tax_free_cap_resolved.
  destruct (resolved_table_nonneg f) as [Hb Hs].
  apply inject_Z_nonneg in HY. rewrite inject_Z_plus.
  change (inject_Z 1) with 1%Q.
  split; nra.
Qed.

Lemma tax_free_cap_table_nonneg_mono_witness :
  (tax_free_cap "2024-25" 8 None None
   <= tax_free_cap "2024-25" (8 + 1) None None)%Q.
Proof.
  apply (tax_free_cap_table_nonneg_mono "2024-25" 8). lia.
Defined.

(** X15. The total gross is the weekly pay times the number of paid
    weeks: redundancy weeks, notice weeks, long service leave weeks and
    the annual leave days at five days a week, the latter raised by the
    loading percentage when loading is included.  No tax setting and no
    in-lieu flag enters it. *)
Theorem total_gross_closed_form (i : Inputs) :
  (total_gross (compute i)
   == weekly_pay (annual_salary i)
      * (redundancy_weeks (compute i) + notice_weeks i + lsl_weeks i
         + al_days i / 5
           * (1 + (if include_al_loading i then al_loading_pct i else 0))))%Q.
Proof.
  unfold compute. cbn [total_gross redundancy_weeks].
  destruct (include_al_loading i); unfold Qdiv; ring.
Qed.

(** X16. The part of the ETP pool left untaxed is the smaller of the pool
    and the cap. *)
Theorem etp_tax_free_part (i : Inputs) :
  (etp_gross (compute i) - etp_taxable (compute i)
   == Qmin (etp_gross (compute i)) (cap (compute i)))%Q.
Proof.
  unfold compute. cbn [etp_gross etp_taxable cap].
  set (g := (_ + (if notice_paid_in_lieu i then _ else _))%Q).
  set (c := tax_free_cap _ _ _ _).
  unfold max_float. destruct (Qgtb (g - c) 0) eqn:E.
  - apply Qgtb_true in E. rewrite Q.min_r by lra. ring.
  - apply Qgtb_false in E. rewrite Q.min_l by lra. ring.
Qed.

(** X17. For inputs in the widget ranges each tax is between 0 and the
    amount it is levied on: the ETP tax at most the taxable ETP and the
    taxable ETP at most the ETP pool, the leave withholding at most the
    leave gross, the notice withholding at most the notice gross. *)
Theorem taxes_bounded_by_their_base (i : Inputs) :
  number_inputs_in_range i ->
  (0 <= etp_tax (compute i) /\ etp_tax (compute i) <= etp_taxable (compute i)
   /\ etp_taxable (compute i) <= etp_gross (compute i)
   /\ 0 <= leave_tax (compute i)
   /\ leave_tax (compute i) <= leave_gross (compute i)
   /\ 0 <= notice_tax (compute i)
   /\ notice_tax (compute i) <= notice_gross (compute i))%Q.
Proof.
  unfold number_inputs_in_range.
  intros (Hs & Hn & Ha & Hl & [Hp _] & Hcb & Hcs & Hu & Ho & Hw).
  destruct (gross_components_nonneg i Hs Hn Ha Hl Hp) as (HR & HN & HL).
  pose proof (cap_nonneg i Hcb Hcs) as HC.
  revert HR HN HL HC. unfold compute.
  cbn [etp_tax etp_taxable etp_gross leave_tax leave_gross notice_tax
       notice_gross redundancy_gross cap].
  set (R := (rw_weeks _ * _)%Q). set (N := (notice_weeks i * _)%Q).
  set (L := (_ + _ + _)%Q). set (C := tax_free_cap _ _ _ _).
  intros HR HN HL HC.
  assert (Hrate :
    (0 <= (if under_pres i then etp_tax_u i else etp_tax_o i) <= 1)%Q)
    by (destruct (under_pres i); assumption).
  set (rate := if under_pres i then _ else _) in *.
  destruct (rate_bounds L (leave_withholding i)) as [HL0 HL1]; try tauto.
  destruct (rate_bounds N (leave_withholding i)) as [HN0 HN1]; try tauto.
  assert (HG : (0 <= R + (if notice_paid_in_lieu i then N else 0))%Q)
    by (destruct (notice_paid_in_lieu i); lra).
  set (G := (R + (if notice_paid_in_lieu i then N else 0))%Q) in *.
  destruct (max_float_0_bounds G C HG HC) as [HT0 HT1].
  set (T := max_float 0 _) in *.
  destruct (rate_bounds T rate) as [HE0 HE1]; try tauto.
  destruct (notice_paid_in_lieu i); cbn [negb]; repeat split; lra.
Qed.

Lemma taxes_bounded_by_their_base_witness :
  (0 <= etp_tax (compute example_inputs))%Q.
Proof.
  apply (taxes_bounded_by_their_base example_inputs).
  vm_compute. intuition discriminate.
Defined.

Lemma max_float_0_anti_mono (x c1 c2 : Q) :
  (c1 <= c2 -> max_float 0 (x - c2) <= max_float 0 (x - c1))%Q.
Proof.
  intros H. unfold max_float.
  destruct (Qgtb (x - c2) 0) eqn:E2; destruct (Qgtb (x - c1) 0) eqn:E1;
    rewrite ?Qgtb_true, ?Qgtb_false in *; lra.
Qed.

Lemma max_float_0_subadd (x n c : Q) :
  (0 <= n -> max_float 0 (x + n - c) <= max_float 0 (x + 0 - c) + n)%Q.
Proof.
  intros H. unfold max_float.
  destruct (Qgtb (x + n - c) 0) eqn:E2; destruct (Qgtb (x + 0 - c) 0) eqn:E1;
    rewrite ?Qgtb_true, ?Qgtb_false in *; lra.
Qed.

(** X18. Raising the cap base amount, everything else unchanged, never
    raises the total tax and never lowers the net (the ETP rates being
    non-negative); the total gross does not change. *)
Theorem higher_cap_never_costs (i : Inputs) (b : Q) :
  (cap_base i <= b)%Q -> (0 <= etp_tax_u i)%Q -> (0 <= etp_tax_o i)%Q ->
  (total_gross (compute (with_cap_base b i)) == total_gross (compute i)
   /\ total_tax (compute (with_cap_base b i)) <= total_tax (compute i)
   /\ total_net (compute i) <= total_net (compute (with_cap_base b i)))%Q.
Proof.
  intros Hb Hu Ho. unfold compute, with_cap_base, tax_free_cap.
  cbn [total_gross total_tax total_net annual_salary dob start_date
       notice_date notice_weeks notice_paid_in_lieu al_days lsl_weeks
       include_al_loading al_loading_pct fy cap_base cap_service under_pres
       etp_tax_u etp_tax_o leave_withholding].
  set (G := (_ + (if notice_paid_in_lieu i then _ else _))%Q).
  set (Y := inject_Z _).
  assert (Hc : (cap_base i + cap_service i * Y <= b + cap_service i * Y)%Q)
    by lra.
  pose proof (max_float_0_anti_mono G _ _ Hc) as HT.
  pose proof (max_float_0_nonneg (G - (b + cap_service i * Y))) as H0.
  set (T1 := max_float 0 (G - (b + _))%Q) in *.
  set (T0 := max_float 0 (G - (cap_base i + _))%Q) in *.
  assert (Hrate : (0 <= (if under_pres i then etp_tax_u i else etp_tax_o i))%Q)
    by (destruct (under_pres i); assumption).
  set (rate := if under_pres i then _ else _) in *.
  assert (HE : (T1 * rate <= T0 * rate)%Q) by nra.
  split; [reflexivity |]. split; lra.
Qed.

Lemma higher_cap_never_costs_witness :
  (total_tax (compute (with_cap_base 20000 example_inputs))
   <= total_tax (compute example_inputs))%Q.
Proof.
  apply (higher_cap_never_costs example_inputs 20000);
    vm_compute; discriminate.
Defined.

(** X19. In exact arithmetic, with a non-negative salary and notice
    period and ETP rates that are non-negative and no higher than the
    leave withholding rate, paying the notice in lieu never gives a higher
    total tax than working it out; the total gross is the same either
    way.  (In binary64 the two totals are rounded along different sums and
    can differ in the last digit in either direction, see
    [notice_in_lieu_rounding].) *)
Theorem notice_in_lieu_never_costs (i : Inputs) :
  (0 <= annual_salary i)%Q -> (0 <= notice_weeks i)%Q ->
  (0 <= etp_tax_u i <= leave_withholding i)%Q ->
  (0 <= etp_tax_o i <= leave_withholding i)%Q ->
  (total_gross (compute (with_notice_paid_in_lieu true i))
   == total_gross (compute (with_notice_paid_in_lieu false i))
   /\ total_tax (compute (with_notice_paid_in_lieu true i))
      <= total_tax (compute (with_notice_paid_in_lieu false i)))%Q.
Proof.
  intros Hs Hn Hu Ho. unfold compute, with_notice_paid_in_lieu.
  cbn [total_gross total_tax annual_salary dob start_date
       notice_date notice_weeks notice_paid_in_lieu al_days lsl_weeks
       include_al_loading al_loading_pct fy cap_base cap_service under_pres
       etp_tax_u etp_tax_o leave_withholding negb].
  pose proof (weekly_pay_nonneg _ Hs) as Hw.
  set (w := weekly_pay (annual_salary i)) in *.
  assert (HN : (0 <= notice_weeks i * w)%Q) by nra.
  set (N := (notice_weeks i * w)%Q) in *.
  set (R := (rw_weeks _ * w)%Q). set (C := tax_free_cap _ _ _ _).
  pose proof (max_float_0_subadd R N C HN) as HT.
  pose proof (max_float_0_nonneg (R + 0 - C)) as H0.
  set (T1 := max_float 0 (R + N - C)%Q) in *.
  set (T0 := max_float 0 (R + 0 - C)%Q) in *.
  assert (Hrate :
    (0 <= (if under_pres i then etp_tax_u i else etp_tax_o i)
     <= leave_withholding i)%Q)
    by (destruct (under_pres i); assumption).
  set (rate := if under_pres i then _ else _) in *.
  split; [reflexivity |]. nra.
Qed.

Lemma notice_in_lieu_never_costs_witness :
  (total_tax (compute (with_notice_paid_in_lieu true example_inputs))
   <= total_tax (compute (with_notice_paid_in_lieu false example_inputs)))%Q.
Proof.
  apply (notice_in_lieu_never_costs example_inputs);
    vm_compute; intuition discriminate.
Defined.

(** At the sidebar defaults (notice date 2029-10-11) the program's total
    tax is 15010.264615384618 with the notice paid in lieu and
    15010.264615384616 without: rounding reverses the exact order by one
    unit in the last place. *)
Remark notice_in_lieu_rounding :
  (B64.total_tax
     (B64.compute
        (B64.sample_inputs (mkdate 2029 10 11) false 13100 6552 0.32 0.17 0.32))
   <? B64.total_tax
        (B64.compute
           (B64.sample_inputs (mkdate 2029 10 11) true 13100 6552
              0.32 0.17 0.32)))%float
  = true.
Proof. vm_compute. reflexivity. Qed.

(** X20. A zero salary gives a zero payout: with non-negative cap
    constants the total gross, the total tax and the net are all 0,
    whatever the dates, weeks, days and rates. *)
Theorem zero_salary_zero_payout (i : Inputs) :
  (annual_salary i == 0)%Q -> (0 <= cap_base i)%Q -> (0 <= cap_service i)%Q ->
  (total_gross (compute i) == 0)%Q
  /\ (total_tax (compute i) == 0)%Q
  /\ (total_net (compute i) == 0)%Q.
Proof.
  intros Hs Hcb Hcs.
  pose proof (cap_nonneg i Hcb Hcs) as HC. revert HC.
  unfold compute. cbn [total_gross total_tax total_net cap].
  assert (Hw : (weekly_pay (annual_salary i) == 0)%Q)
    by (unfold weekly_pay; rewrite Hs; reflexivity).
  set (w := weekly_pay (annual_salary i)) in *.
  set (C := tax_free_cap _ _ _ _). intros HC.
  assert (HR : (rw_weeks (redundancy_weeks_paso_standard (start_date i)
                  (notice_date i) (dob i)) * w == 0)%Q)
    by (rewrite Hw; ring).
  set (R := (rw_weeks _ * w)%Q) in *.
  assert (HN : (notice_weeks i * w == 0)%Q) by (rewrite Hw; ring).
  set (N := (notice_weeks i * w)%Q) in *.
  assert (HA : (al_days i * (w / 5) == 0)%Q) by (rewrite Hw; unfold Qdiv; ring).
  set (A := (al_days i * (w / 5))%Q) in *.
  assert (HLs : (lsl_weeks i * w == 0)%Q) by (rewrite Hw; ring).
  set (Ls := (lsl_weeks i * w)%Q) in *.
  assert (HLo : ((if include_al_loading i then al_loading_pct i * A else 0)
                 == 0)%Q)
    by (destruct (include_al_loading i); [rewrite HA; ring | reflexivity]).
  set (Lo := if include_al_loading i then _ else _) in *.
  assert (HG : (R + (if notice_paid_in_lieu i then N else 0) == 0)%Q)
    by (destruct (notice_paid_in_lieu i); lra).
  set (G := (R + (if notice_paid_in_lieu i then N else 0))%Q) in *.
  assert (HT : (max_float 0 (G - C) == 0)%Q).
  { rewrite max_float_Qmax. apply Q.max_l. lra. }
  set (T := max_float 0 _) in *.
  assert (HNT : ((if negb (notice_paid_in_lieu i)
                  then N * leave_withholding i else 0) == 0)%Q)
    by (destruct (notice_paid_in_lieu i); cbn [negb];
        [reflexivity | rewrite HN; ring]).
  set (NT := if negb (notice_paid_in_lieu i) then _ else _) in *.
  assert (HE : (T * (if under_pres i then etp_tax_u i else etp_tax_o i)
                == 0)%Q) by (rewrite HT; ring).
  set (E := (T * _)%Q) in *.
  assert (HLT : ((A + Ls + Lo) * leave_withholding i == 0)%Q)
    by (rewrite HA, HLs, HLo; ring).
  set (LT := ((A + Ls + Lo) * _)%Q) in *.
  repeat split; lra.
Qed.

Lemma zero_salary_zero_payout_witness :
  (total_net (compute (sample_inputs 0 true)) == 0)%Q.
Proof.
  apply (zero_salary_zero_payout (sample_inputs 0 true));
    vm_compute; first [reflexivity | discriminate].
Defined.

(** * Properties of the presentation layer *)

(** ** Column sums *)

Lemma fold_left_Qplus_acc (l : list Q) (acc : Q) :
  (fold_left Qplus l acc == acc + fold_left Qplus l 0)%Q.
Proof.
  revert acc. induction l as [| x l IH]; intros acc; cbn [fold_left].
  - ring.
  - rewrite (IH (acc + x)%Q), (IH (0 + x)%Q). ring.
Qed.

Lemma column_sum_nil : column_sum [] = 0%Q.
Proof. reflexivity. Qed.

Lemma column_sum_cons (x : Q) (l : list Q) :
  (column_sum (x :: l) == x + column_sum l)%Q.
Proof.
  unfold column_sum. cbn [fold_left].
  rewrite fold_left_Qplus_acc. ring.
Qed.

Lemma column_sum_nonneg (l : list Q) :
  Forall (fun x => (0 <= x)%Q) l -> (0 <= column_sum l)%Q.
Proof.
  induction 1 as [| x l Hx _ IH].
  - rewrite column_sum_nil. lra.
  - rewrite column_sum_cons. lra.
Qed.

Lemma column_sum_pos (l : list Q) :
  l <> [] -> Forall (fun x => (0 < x)%Q) l -> (0 < column_sum l)%Q.
Proof.
  intros Hne Hall. destruct Hall as [| x l Hx Hl]; [congruence |].
  rewrite column_sum_cons.
  assert ((0 <= column_sum l)%Q).
  { apply column_sum_nonneg. eapply Forall_impl; [exact Hl |].
    cbn. intros y Hy. lra. }
  lra.
Qed.

Lemma column_sum_scaled (A : Type) (g : A -> Q) (k : Q) (l : list A) :
  (column_sum (map (fun r => g r * k) l) == column_sum (map g l) * k)%Q.
Proof.
  induction l as [| r l IH]; cbn [map].
  - rewrite column_sum_nil. ring.
  - rewrite !column_sum_cons, IH. ring.
Qed.

Lemma column_sum_ext (A : Type) (f g : A -> Q) (l : list A) :
  (forall r, (f r == g r)%Q) ->
  (column_sum (map f l) == column_sum (map g l))%Q.
Proof.
  intros H. induction l as [| r l IH]; cbn [map].
  - reflexivity.
  - rewrite !column_sum_cons, IH, H. reflexivity.
Qed.

Lemma column_sum_zero_iff (l : list Q) :
  Forall (fun x => (0 <= x)%Q) l ->
  ((column_sum l == 0)%Q <-> Forall (fun x => (x <= 0)%Q) l).
Proof.
  induction 1 as [| x l Hx Hl IH].
  - split; [constructor | reflexivity].
  - rewrite column_sum_cons. pose proof (column_sum_nonneg l Hl) as Hs.
    split.
    + intros H. constructor; [lra |]. apply IH. lra.
    + intros H. inversion H as [| ? ? Hx0 Hl0]; subst.
      apply IH in Hl0. lra.
Qed.

(** ** The cash components table *)

Lemma gross_column_sum
    (format : string -> Q -> string) (i : Inputs) :
  (column_sum (map row_Gross (rows format i (compute i)))
   == total_gross (compute i))%Q.
Proof.
  unfold rows. cbn [map row_Gross].
  rewrite !column_sum_cons, column_sum_nil.
  unfold compute.
  cbn [redundancy_gross notice_gross al_gross lsl_gross al_loading_gross
       total_gross].
  ring.
Qed.

(** X21. The [Gross] column of the cash components table adds up to the
    total gross: the breakdown leaves nothing out and counts nothing
    twice. *)
Theorem components_add_up_to_total_gross
    (format : string -> Q -> string) (i : Inputs) :
  (column_sum (map row_Gross (rows format i (compute i)))
   == total_gross (compute i))%Q.
Proof. apply gross_column_sum. Qed.

(** X22. The [Percent] column has one entry per row; when the column of
    gross amounts has a positive sum the percentages add up to 100, and
    otherwise they are all 0. *)
Theorem percent_column_total (df : list ComponentRow) :
  length (percent_column df) = length df
  /\ ((0 < column_sum (map row_Gross df))%Q ->
      (column_sum (percent_column df) == 100)%Q)
  /\ ((column_sum (map row_Gross df) <= 0)%Q ->
      Forall (fun p => p = 0%Q) (percent_column df)).
Proof.
  unfold percent_column. set (t := column_sum (map row_Gross df)).
  split; [destruct (Qgtb t 0); apply length_map |]. split.
  - intros Hpos. apply Qgtb_true in Hpos as E. rewrite E.
    assert (Heq : forall r : ComponentRow,
              (row_Gross r / t * 100 == row_Gross r * (100 / t))%Q).
    { intros r. field. lra. }
    rewrite (column_sum_ext _ _ _ df Heq), column_sum_scaled.
    fold t. field. lra.
  - intros Hle. apply Qgtb_false in Hle as E. rewrite E.
    apply Forall_map. apply Forall_forall. reflexivity.
Qed.

Lemma percent_column_total_witness :
  (column_sum
     (percent_column
        (rows (fun _ _ => "") example_inputs (compute example_inputs)))
   == 100)%Q.
Proof.
  apply (percent_column_total
           (rows (fun _ _ => "") example_inputs (compute example_inputs))).
  vm_compute. reflexivity.
Defined.

(** ** The donut chart *)

Lemma positive_rows_spec (df : list (string * Q)) :
  Forall (fun r => (0 < snd r)%Q)
    (List.filter (fun r => Qgtb (snd r) 0) df).
Proof.
  apply Forall_forall. intros r Hr. apply list_elem_of_In in Hr.
  apply filter_In in Hr as [_ Hr]. apply Qgtb_true in Hr. exact Hr.
Qed.

Lemma positive_rows_nil_iff (df : list (string * Q)) :
  List.filter (fun r => Qgtb (snd r) 0) df = []
  <-> Forall (fun r => (snd r <= 0)%Q) df.
Proof.
  induction df as [| r df IH]; cbn [List.filter].
  - split; [constructor | reflexivity].
  - destruct (Qgtb (snd r) 0) eqn:E.
    + apply Qgtb_true in E. split; [discriminate |].
      intros H. inversion H; subst. lra.
    + apply Qgtb_false in E. rewrite IH. split.
      * intros H. constructor; assumption.
      * intros H. inversion H; subst. assumption.
Qed.

Lemma donut_chart_unfold
    (format : string -> Q -> string) (df : list (string * Q))
    (title : string) :
  let chart_df := List.filter (fun r => Qgtb (snd r) 0) df in
  donut_chart format df title =
  match chart_df with
  | [] => None
  | _ => Some (mkFigure (map fst chart_df) (map snd chart_df)
                 ("Total<br>" +:+ money format (column_sum (map snd chart_df)))
                 title)
  end.
Proof.
  cbv zeta. unfold donut_chart.
  pose proof (positive_rows_spec df) as Hpos.
  destruct (List.filter (fun r => Qgtb (snd r) 0) df) as [| r l] eqn:E.
  - rewrite orb_true_r. reflexivity.
  - rewrite orb_false_r.
    assert (Hs : (0 < column_sum (map snd (r :: l)))%Q).
    { apply column_sum_pos; [discriminate |].
      apply Forall_map. exact Hpos. }
    destruct (Qle_bool (column_sum (map snd (r :: l))) 0) eqn:Hle;
      [| reflexivity].
    apply Qle_bool_iff in Hle. lra.
Qed.

(** X23. [donut_chart] returns no figure exactly when no row has a
    positive gross amount; its second test, on the total, never decides
    anything on its own. *)
Theorem donut_chart_none_iff
    (format : string -> Q -> string) (df : list (string * Q))
    (title : string) :
  donut_chart format df title = None
  <-> Forall (fun r => (snd r <= 0)%Q) df.
Proof.
  rewrite donut_chart_unfold. cbv zeta.
  rewrite <- positive_rows_nil_iff.
  destruct (List.filter (fun r => Qgtb (snd r) 0) df);
    split; intros H; first [reflexivity | discriminate].
Qed.



Lemma components_nonneg (format : string -> Q -> string) (i : Inputs) :
  number_inputs_in_range i ->
  Forall (fun x => (0 <= x)%Q) (map row_Gross (rows format i (compute i))).
Proof.
  unfold number_inputs_in_range.
  intros (Hs & Hn & Ha & Hl & [Hp _] & _).
  unfold rows. cbn [map row_Gross]. unfold compute.
  cbn [redundancy_gross notice_gross al_gross lsl_gross al_loading_gross].
  pose proof (weekly_pay_nonneg _ Hs) as Hw.
  destruct (redundancy_weeks_nonneg (start_date i) (notice_date i) (dob i))
    as [Hr _].
  set (w := weekly_pay (annual_salary i)) in *.
  set (r := rw_weeks _) in *.
  assert (Hd : (0 <= w / 5)%Q) by (rewrite div_5; lra).
  set (d := (w / 5)%Q) in *.
  assert (Hal : (0 <= al_days i * d)%Q) by nra.
  repeat constructor; try nra.
  destruct (include_al_loading i); nra.
Qed.

(** X25. For inputs in the widget ranges the script has nothing to chart
    (and shows its "Nothing to chart yet" note) exactly when the total
    gross is 0. *)
Theorem nothing_to_chart_iff_zero_gross
    (format : string -> Q -> string) (i : Inputs) (title : string) :
  number_inputs_in_range i ->
  (donut_chart format (type_and_gross (rows format i (compute i))) title
   = None
   <-> (total_gross (compute i) == 0)%Q).
Proof.
  intros Hr. rewrite donut_chart_none_iff.
  rewrite <- (gross_column_sum format i).
  rewrite (column_sum_zero_iff _ (components_nonneg format i Hr)).
  unfold type_and_gross. rewrite !Forall_map. reflexivity.
Qed.

Lemma nothing_to_chart_iff_zero_gross_witness :
  donut_chart (fun _ _ => "")
    (type_and_gross
       (rows (fun _ _ => "") (sample_inputs 0 true)
          (compute (sample_inputs 0 true))))
    "Share of gross payout"
  = None.
Proof.
  apply (nothing_to_chart_iff_zero_gross (fun _ _ => "")
           (sample_inputs 0 true) "Share of gross payout").
  - vm_compute. intuition discriminate.
  - vm_compute. reflexivity.
Defined.

(** ** The tax table *)

(** X26. The tax table has six rows, and a seventh, the notice
    withholding, exactly when the notice is not paid in lieu; the amounts
    of its tax rows (ETP tax, leave withholding and, when listed, notice
    withholding) add up to the total tax. *)
Theorem tax_table_accounts_for_total_tax
    (format : string -> Q -> string) (i : Inputs) :
  let amounts := map row_Amount (tax_rows format i (compute i)) in
  length amounts = (if notice_paid_in_lieu i then 6 else 7)%nat
  /\ (nth 3 amounts 0 + nth 5 amounts 0 + column_sum (skipn 6 amounts)
      == total_tax (compute i))%Q.
Proof.
  cbv zeta.
  assert (Htot : (total_tax (compute i)
                  == etp_tax (compute i) + leave_tax (compute i)
                     + notice_tax (compute i))%Q) by reflexivity.
  assert (Hnt : notice_paid_in_lieu i = true ->
                (notice_tax (compute i) == 0)%Q).
  { intros E. unfold compute. cbn [notice_tax]. rewrite E. reflexivity. }
  rewrite Htot. clear Htot. unfold tax_rows.
  set (r := compute i) in *.
  destruct (notice_paid_in_lieu i) eqn:E; cbn [negb app map row_Amount nth
    skipn length]; (split; [reflexivity |]).
  - rewrite column_sum_nil, (Hnt eq_refl). ring.
  - rewrite column_sum_cons, column_sum_nil. ring.
Qed.

(** ** The KPI cards *)

Lemma render_kpi_present
    (format : string -> Q -> string) (prev now : gmap string Q)
    (key label kind : string) (gold : bool) (v : Q) :
  now !! key = Some v ->
  (prev !! key = None -> is_static (render_kpi format prev now key label kind gold))
  /\ (forall old, prev !! key = Some old ->
        ((old == v)%Q ->
         is_static (render_kpi format prev now key label kind gold))
        /\ (~ (old == v)%Q ->
            render_kpi format prev now key label kind gold
            = Some (Animated label old v kind gold))).
Proof.
  intros Hnow. unfold render_kpi. rewrite Hnow. split.
  - intros ->. cbn [from_option id].
    rewrite (proj2 (Qeq_bool_iff v v)) by reflexivity. exact I.
  - intros old ->. cbn [from_option id]. split.
    + intros Heq. rewrite (proj2 (Qeq_bool_iff old v) Heq). exact I.
    + intros Hne. destruct (Qeq_bool old v) eqn:E; [| reflexivity].
      apply Qeq_bool_iff in E. contradiction.
Qed.

(** X27. [render_kpi] fails only on a key that the current KPI values
    lack.  For a key they hold, the card is animated, from the previous
    value to the current one, exactly when the previous values hold a
    different number for that key; it is drawn as it is when the number
    is the same or the previous values lack the key. *)
Theorem render_kpi_animates_iff_changed
    (format : string -> Q -> string) (prev now : gmap string Q)
    (key label kind : string) (gold : bool) :
  (now !! key = None <->
   render_kpi format prev now key label kind gold = None)
  /\ (forall v, now !! key = Some v ->
        (prev !! key = None ->
         is_static (render_kpi format prev now key label kind gold))
        /\ (forall old, prev !! key = Some old ->
              ((old == v)%Q ->
               is_static (render_kpi format prev now key label kind gold))
              /\ (~ (old == v)%Q ->
                  render_kpi format prev now key label kind gold
                  = Some (Animated label old v kind gold)))).
Proof.
  split; [| intros v; apply render_kpi_present].
  unfold render_kpi. destruct (now !! key) as [v |].
  - split; [discriminate |].
    destruct (negb (Qeq_bool (default v (prev !! key)) v)); discriminate.
  - split; reflexivity.
Qed.

Lemma render_kpi_animates_iff_changed_witness :
  render_kpi (fun _ _ => "") {["gross_total" := 100%Q]}
    {["gross_total" := 120%Q]} "gross_total" "Gross total" "currency" true
  = Some (Animated "Gross total" 100 120 "currency" true).
Proof.
  apply (render_kpi_animates_iff_changed (fun _ _ => "")
           {["gross_total" := 100%Q]} {["gross_total" := 120%Q]}
           "gross_total" "Gross total" "currency" true).
  - reflexivity.
  - reflexivity.
  - vm_compute. discriminate.
Defined.

Lemma render_kpi_unchanged
    (format : string -> Q -> string) (now : gmap string Q)
    (key label kind : string) (gold : bool) :
  is_Some (now !! key) ->
  is_static (render_kpi format now now key label kind gold).
Proof.
  intros [v Hv].
  destruct (render_kpi_present format now now key label kind gold v Hv)
    as [_ H].
  apply (H v Hv). reflexivity.
Qed.

Lemma kpi_now_keys (i : Inputs) (res : Results) :
  Forall (fun key => is_Some (kpi_now i res !! key))
    ["weekly_pay"; "redundancy_weeks"; "unused_al_weeks";
     "unused_lsl_weeks"; "gross_total"; "net_total"].
Proof.
  unfold kpi_now. repeat constructor;
    repeat (rewrite lookup_insert_ne by discriminate);
    rewrite lookup_insert_eq; eexists; reflexivity.
Qed.

Lemma kpi_cards_same
    (format : string -> Q -> string)
    (s : gmap string (gmap string Q)) (i : Inputs) (res : Results) :
  s !! "kpi_prev" = Some (kpi_now i res) ->
  Forall is_static (fst (kpi_cards format s (kpi_now i res))).
Proof.
  intros Hs. unfold kpi_cards. rewrite Hs. cbv iota. rewrite Hs.
  cbn [fst from_option id].
  pose proof (kpi_now_keys i res) as Hk.
  repeat (apply Forall_cons_1 in Hk as [? Hk]).
  repeat (constructor; [apply render_kpi_unchanged; assumption |]).
  constructor.
Qed.

(** X28. The KPI cards animate changes only.  A run stores the current
    KPI values as the previous ones; on the first run of a session (no
    previous values stored) no card is animated, and running again with
    the same inputs animates no card and leaves the session state as it
    is. *)
Theorem kpi_cards_animate_changes_only
    (format : string -> Q -> string)
    (s : gmap string (gmap string Q)) (i : Inputs) (res : Results) :
  let now := kpi_now i res in
  let run1 := kpi_cards format s now in
  let run2 := kpi_cards format (snd run1) now in
  snd run1 !! "kpi_prev" = Some now
  /\ (s !! "kpi_prev" = None -> Forall is_static (fst run1))
  /\ Forall is_static (fst run2)
  /\ snd run2 = snd run1.
Proof.
  cbv zeta.
  assert (H1 : snd (kpi_cards format s (kpi_now i res)) !! "kpi_prev"
               = Some (kpi_now i res)).
  { unfold kpi_cards. cbn [snd]. apply lookup_insert_eq. }
  split; [exact H1 |]. split; [| split].
  - intros Hnone.
    assert (Heq : kpi_cards format s (kpi_now i res)
                  = kpi_cards format (<["kpi_prev" := kpi_now i res]> s)
                      (kpi_now i res)).
    { unfold kpi_cards. rewrite Hnone. cbv iota.
      rewrite !lookup_insert_eq. cbv iota.
      rewrite ?lookup_insert_eq, insert_insert_eq. reflexivity. }
    rewrite Heq. apply kpi_cards_same. apply lookup_insert_eq.
  - apply kpi_cards_same. exact H1.
  - unfold kpi_cards at 1. rewrite H1. cbn [snd].
    apply insert_id. exact H1.
Qed.

Lemma kpi_cards_animate_changes_only_witness :
  Forall is_static
    (fst (kpi_cards (fun _ _ => "") ∅
            (kpi_now example_inputs (compute example_inputs)))).
Proof.
  refine (proj1 (proj2 (kpi_cards_animate_changes_only (fun _ _ => "") ∅
                          example_inputs (compute example_inputs))) _).
  reflexivity.
Defined.
